(** * Chargeback store: create-once, compare-before-write, no-op-safe delete

    A shallow embedding of the Go packages [models], [store] and [handlers]
    of the idempotency example, and the properties of their CRUD contract.

    The persistence layer keeps JSON-encoded [Chargeback] records in a single
    BoltDB bucket.  The embedding follows the source function by function:

    - a bucket is a finite map from keys to byte payloads;
    - a closure run by [db.Update] / [db.View] is a computation in a small
      state-and-error monad; an error returned by the closure rolls the
      transaction back, and a commit always goes through (faults of the disk
      are outside the model);
    - [encoding/json] is an interface ([JSON]) the store is parametric in;
    - [time.Now().UTC()] is the wall-clock reading, passed in by the caller of
      the model as the argument [now]. *)

From Stdlib Require Import ZArith String Ascii List.
From stdpp Require Import base option gmap strings list sorting fin_maps.

Open Scope Z_scope.
Open Scope string_scope.

(** ** models.Chargeback *)

(** [time.Time] values reaching the store are wall-clock instants ([UTC()]
    strips the monotonic reading); an instant is a number of nanoseconds. *)
Definition Time := Z.

(** [Amount] is an [int64]; the code only copies and compares it, so no
    arithmetic (and no wrap-around) is involved. *)
Record Chargeback := mkChargeback {
  ID : string;
  Amount : Z;
  Currency : string;
  Reason : string;
  CreatedAt : Time;
  UpdatedAt : Time
}.

(** ** Errors *)

(** [ErrNotFound] is the store's own sentinel.  [ErrKeyRequired],
    [ErrKeyTooLarge] and [ErrValueTooLarge] are the errors of bolt's
    [Bucket.Put]; [ErrUnmarshal] and [ErrMarshal] stand for the errors of
    [encoding/json]. *)
Inductive error :=
| ErrNotFound
| ErrKeyRequired
| ErrKeyTooLarge
| ErrValueTooLarge
| ErrUnmarshal
| ErrMarshal.

(** ** encoding/json *)

(** The values the program hands to the JSON encoder: a chargeback, or a
    one-entry [map[string]string]. *)
Inductive GoValue :=
| VChargeback (c : Chargeback)
| VStringMap (k v : string).

(** [json_Unmarshal] decodes into a zero-valued [Chargeback] (every call site
    declares a fresh variable); [json_Decode] is [json.NewDecoder(r).Decode]. *)
Class JSON := {
  json_Marshal : GoValue -> option string;
  json_Unmarshal : string -> option Chargeback;
  json_Decode : string -> option Chargeback
}.

(** What [encoding/json] does to a record on its way through the store: the
    encoder coerces the strings it writes (with [coerce]: each byte that is
    not part of valid UTF-8 becomes U+FFFD) and keeps the amount and the
    timestamps. *)
Definition coerced (coerce : string -> string) (c : Chargeback) : Chargeback :=
  mkChargeback (coerce (ID c)) (Amount c) (coerce (Currency c))
               (coerce (Reason c)) (CreatedAt c) (UpdatedAt c).

(** The codec law: a written record reads back with its strings coerced and
    its amount and timestamps as they were, and a record the decoder returns
    is left alone by the coercion. *)
Definition json_coerces `{JSON} (coerce : string -> string) : Prop :=
  (forall c data, json_Marshal (VChargeback c) = Some data ->
                  json_Unmarshal data = Some (coerced coerce c))
  /\ (forall data c, json_Unmarshal data = Some c -> coerced coerce c = c).

(** The same for the decoder of request bodies. *)
Definition json_decodes_clean `{JSON} (coerce : string -> string) : Prop :=
  forall data c, json_Decode data = Some c -> coerced coerce c = c.

(** ** The bolt bucket and its transactions *)

Abbreviation Bucket := (gmap string string).

(** A closure run inside a transaction: it reads and writes the bucket and
    either fails or yields the values it assigned to its captured variables. *)
Definition Tx (A : Type) : Type := Bucket -> error + (A * Bucket).

Definition tx_ret {A} (a : A) : Tx A := fun b => inr (a, b).

Definition tx_bind {A B} (m : Tx A) (k : A -> Tx B) : Tx B :=
  fun b => match m b with
           | inl e => inl e
           | inr (a, b') => k a b'
           end.

Definition tx_fail {A} (e : error) : Tx A := fun _ => inl e.

Definition tx_lift {A} (e : error) (o : option A) : Tx A :=
  match o with
  | Some a => tx_ret a
  | None => tx_fail e
  end.

Notation "'let*' x ':=' m 'in' k" := (tx_bind m (fun x => k))
  (at level 10, x name, m at level 100, k at level 200).

(** bolt's limits on the length of a key and of a value, in bytes. *)
Definition MaxKeySize : Z := 32768.
Definition MaxValueSize : Z := 2147483646.

(** [Bucket.Get]: [nil] when the key does not exist. *)
Definition bucket_Get (key : string) : Tx (option string) :=
  fun b => inr (b !! key, b).

(** [Bucket.Put]: an error if the key is blank, if the key is too large, or
    if the value is too large. *)
Definition bucket_Put (key value : string) : Tx unit :=
  fun b =>
    if String.eqb key "" then inl ErrKeyRequired
    else if Z.of_nat (String.length key) >? MaxKeySize
         then inl ErrKeyTooLarge
    else if Z.of_nat (String.length value) >? MaxValueSize
         then inl ErrValueTooLarge
    else inr (tt, <[key := value]> b).

(** The keys and values [Bucket.Put] does not reject. *)
Definition put_accepts (key value : string) : Prop :=
  key <> "" /\ Z.of_nat (String.length key) <= MaxKeySize
  /\ Z.of_nat (String.length value) <= MaxValueSize.

(** [Bucket.Delete]: removing a key that does not exist is a no-op. *)
Definition bucket_Delete (key : string) : Tx unit :=
  fun b => inr (tt, delete key b).

(** Keys are visited in byte-sorted order. *)
Definition key_le (x y : string * string) : Prop :=
  String.leb (fst x) (fst y) = true.

#[global] Instance key_le_dec : RelDecision key_le.
Proof. intros x y. unfold key_le. apply _. Defined.

Definition bucket_entries (b : Bucket) : list (string * string) :=
  merge_sort key_le (map_to_list b).

Fixpoint for_each {S} (fn : string -> string -> S -> error + S)
    (kvs : list (string * string)) (s : S) : error + S :=
  match kvs with
  | [] => inr s
  | (k, v) :: rest =>
      match fn k v s with
      | inl e => inl e
      | inr s' => for_each fn rest s'
      end
  end.

(** [Bucket.ForEach]: the callback's captured state is threaded through; the
    first error stops the iteration. *)
Definition bucket_ForEach {S} (fn : string -> string -> S -> error + S)
    (s : S) : Tx S :=
  fun b => match for_each fn (bucket_entries b) s with
           | inl e => inl e
           | inr s' => inr (s', b)
           end.

(** [db.Update]: commit when the closure returns nil, roll back otherwise. *)
Definition db_Update {A} (fn : Tx A) (b : Bucket) : Bucket * (error + A) :=
  match fn b with
  | inl e => (b, inl e)
  | inr (a, b') => (b', inr a)
  end.

(** [db.View]: a read-only transaction. *)
Definition db_View {A} (fn : Tx A) (b : Bucket) : error + A :=
  match fn b with
  | inl e => inl e
  | inr (a, _) => inr a
  end.

(** ** Go slices: [nil] is distinct from an empty, non-nil slice. *)
Inductive slice (A : Type) :=
| slice_nil
| slice_of (l : list A).
Arguments slice_nil {A}.
Arguments slice_of {A} l.

Definition slice_elems {A} (s : slice A) : list A :=
  match s with
  | slice_nil => []
  | slice_of l => l
  end.

Definition slice_append {A} (s : slice A) (x : A) : slice A :=
  slice_of (slice_elems s ++ [x]).

Definition slice_len {A} (s : slice A) : nat := length (slice_elems s).

(** ** package store *)

Section Store.
Context `{JSON}.

(** [c.CreatedAt = now; c.UpdatedAt = now] *)
Definition stamp (c : Chargeback) (now : Time) : Chargeback :=
  mkChargeback (ID c) (Amount c) (Currency c) (Reason c) now now.

(** The callback [Store.List] hands to [ForEach]; [items] is the slice it
    captures. *)
Definition collect (k v : string) (items : slice Chargeback)
  : error + slice Chargeback :=
  match json_Unmarshal v with
  | None => inl ErrUnmarshal
  | Some c => inr (slice_append items c)
  end.

(** [Store.List] *)
Definition List (b : Bucket) : error + slice Chargeback :=
  match db_View (bucket_ForEach collect slice_nil) b with
  | inl e => inl e
  | inr items =>
      match items with
      | slice_nil => inr (slice_of [])
      | _ => inr items
      end
  end.

(** [Store.Get] *)
Definition Get (id : string) (b : Bucket) : error + Chargeback :=
  db_View (let* v := bucket_Get id in
           match v with
           | None => tx_fail ErrNotFound
           | Some v => tx_lift ErrUnmarshal (json_Unmarshal v)
           end) b.

(** [Store.Create]: the result is [(record, created)] or the error.  The
    timestamps are also assigned through the caller's pointer [c]; the result
    is the copy [*c] taken after the assignment. *)
Definition Create (c : Chargeback) (now : Time) (b : Bucket)
  : Bucket * (error + (Chargeback * bool)) :=
  db_Update (let* existing := bucket_Get (ID c) in
             match existing with
             | Some v =>
                 let* result := tx_lift ErrUnmarshal (json_Unmarshal v) in
                 tx_ret (result, false)
             | None =>
                 let c := stamp c now in
                 let* data := tx_lift ErrMarshal
                                (json_Marshal (VChargeback c)) in
                 let* _ := bucket_Put (ID c) data in
                 tx_ret (c, true)
             end) b.

(** The three assignments and the timestamp bump of [Store.Update]. *)
Definition apply_update (existing incoming : Chargeback) (now : Time)
  : Chargeback :=
  mkChargeback (ID existing) (Amount incoming) (Currency incoming)
               (Reason incoming) (CreatedAt existing) now.

(** The write-avoidance comparison. *)
Definition same_payload (existing incoming : Chargeback) : bool :=
  Z.eqb (Amount existing) (Amount incoming)
  && String.eqb (Currency existing) (Currency incoming)
  && String.eqb (Reason existing) (Reason incoming).

(** [Store.Update]: the result is [(record, written)] or the error. *)
Definition Update (id : string) (incoming : Chargeback) (now : Time)
    (b : Bucket) : Bucket * (error + (Chargeback * bool)) :=
  db_Update (let* existingBytes := bucket_Get id in
             match existingBytes with
             | None => tx_fail ErrNotFound
             | Some v =>
                 let* existing := tx_lift ErrUnmarshal (json_Unmarshal v) in
                 if same_payload existing incoming
                 then tx_ret (existing, false)
                 else
                   let existing := apply_update existing incoming now in
                   let* data := tx_lift ErrMarshal
                             (json_Marshal (VChargeback existing)) in
                   let* _ := bucket_Put id data in
                   tx_ret (existing, true)
             end) b.

(** [Store.Delete]: [None] is the nil error. *)
Definition Delete (id : string) (b : Bucket) : Bucket * option error :=
  match db_Update (bucket_Delete id) b with
  | (b', inl e) => (b', Some e)
  | (b', inr _) => (b', None)
  end.
End Store.

(** ** package handlers: POST /chargebacks/{id} *)

Record Request := mkRequest {
  PathValue_id : string;
  Body : string
}.

Record Response := mkResponse {
  StatusCode : Z;
  ContentType : string;
  Written : string
}.

Definition StatusOK : Z := 200.
Definition StatusCreated : Z := 201.
Definition StatusBadRequest : Z := 400.
Definition StatusInternalServerError : Z := 500.

Definition newline : string := String (ascii_of_nat 10) EmptyString.

Section Handlers.
Context `{JSON}.

(** [json.NewEncoder(w).Encode(v)]: the encoding followed by a newline; the
    encoder's error is discarded by the handler. *)
Definition encode_body (v : GoValue) : string :=
  match json_Marshal v with
  | Some data => data ++ newline
  | None => ""
  end.

Definition writeJSON (status : Z) (v : GoValue) : Response :=
  mkResponse status "application/json" (encode_body v).

Definition writeError (status : Z) (msg : string) : Response :=
  writeJSON status (VStringMap "error" msg).

(** [body.ID = id] *)
Definition with_ID (body : Chargeback) (id : string) : Chargeback :=
  mkChargeback id (Amount body) (Currency body) (Reason body)
               (CreatedAt body) (UpdatedAt body).

(** [Handler.create] *)
Definition create (r : Request) (now : Time) (b : Bucket)
  : Bucket * Response :=
  let id := PathValue_id r in
  if String.eqb id "" then
    (b, writeError StatusBadRequest "missing id in path")
  else
    match json_Decode (Body r) with
    | None => (b, writeError StatusBadRequest "invalid JSON body")
    | Some body =>
        let body := with_ID body id in
        match Create body now b with
        | (b', inl _) =>
            (b', writeError StatusInternalServerError
                            "failed to create chargeback")
        | (b', inr (result, created)) =>
            if created
            then (b', writeJSON StatusCreated (VChargeback result))
            else (b', writeJSON StatusOK (VChargeback result))
        end
    end.
End Handlers.

(** ** Histories of mutating calls *)

Inductive op :=
| OpCreate (c : Chargeback) (now : Time)
| OpUpdate (id : string) (incoming : Chargeback) (now : Time)
| OpDelete (id : string).

Section Histories.
Context `{JSON}.

Definition exec (o : op) (b : Bucket) : Bucket :=
  match o with
  | OpCreate c now => fst (Create c now b)
  | OpUpdate id incoming now => fst (Update id incoming now b)
  | OpDelete id => fst (Delete id b)
  end.

Definition run (ops : list op) (b : Bucket) : Bucket :=
  fold_left (fun b o => exec o b) ops b.

(** The record the store holds under a key, if any. *)
Definition record_at (b : Bucket) (id : string) : option Chargeback :=
  match b !! id with
  | Some v => json_Unmarshal v
  | None => None
  end.

(** The key stays present after every call of the history. *)
Fixpoint stays_present (id : string) (ops : list op) (b : Bucket) : Prop :=
  match ops with
  | [] => True
  | o :: rest => is_Some (exec o b !! id) /\ stays_present id rest (exec o b)
  end.

(** Every stored value decodes, and sits under a key the engine accepts. *)
Definition well_formed (b : Bucket) : Prop :=
  forall id v, b !! id = Some v ->
    is_Some (json_Unmarshal v) /\ put_accepts id v.

(** Every stored value decodes to a record whose timestamps are in order and
    not later than [t]. *)
Definition ts_inv (t : Time) (b : Bucket) : Prop :=
  forall id v, b !! id = Some v ->
    exists r, json_Unmarshal v = Some r
              /\ CreatedAt r <= UpdatedAt r /\ UpdatedAt r <= t.
End Histories.

(** The wall-clock reading of a call, for the calls that may read the clock. *)
Definition op_time (o : op) : option Time :=
  match o with
  | OpCreate _ now => Some now
  | OpUpdate _ _ now => Some now
  | OpDelete _ => None
  end.

(** The clock never runs backwards along the history, starting from [t]. *)
Fixpoint clock_monotone (t : Time) (ops : list op) : Prop :=
  match ops with
  | [] => True
  | o :: rest =>
      match op_time o with
      | Some now => t <= now /\ clock_monotone now rest
      | None => clock_monotone t rest
      end
  end.

(** ** A reference codec

    A self-delimiting encoding of the values of [GoValue] that reads back
    what it wrote.  It instantiates [JSON] wherever the model is run on
    concrete data. *)
Module RefCodec.

Fixpoint put_pos (p : positive) (rest : string) : string :=
  match p with
  | xH => String "." rest
  | xO p => String "0" (put_pos p rest)
  | xI p => String "1" (put_pos p rest)
  end.

Fixpoint get_pos (s : string) : option (positive * string) :=
  match s with
  | EmptyString => None
  | String a r =>
      if Ascii.eqb a "." then Some (xH, r)
      else if Ascii.eqb a "0" then
        match get_pos r with
        | Some (p, r') => Some (xO p, r')
        | None => None
        end
      else if Ascii.eqb a "1" then
        match get_pos r with
        | Some (p, r') => Some (xI p, r')
        | None => None
        end
      else None
  end.

Definition put_Z (z : Z) (rest : string) : string :=
  match z with
  | Z0 => String "z" rest
  | Zpos p => String "+" (put_pos p rest)
  | Zneg p => String "-" (put_pos p rest)
  end.

Definition get_Z (s : string) : option (Z * string) :=
  match s with
  | EmptyString => None
  | String a r =>
      if Ascii.eqb a "z" then Some (Z0, r)
      else if Ascii.eqb a "+" then
        match get_pos r with
        | Some (p, r') => Some (Zpos p, r')
        | None => None
        end
      else if Ascii.eqb a "-" then
        match get_pos r with
        | Some (p, r') => Some (Zneg p, r')
        | None => None
        end
      else None
  end.

Fixpoint split_at (n : nat) (s : string) : option (string * string) :=
  match n with
  | O => Some (EmptyString, s)
  | S n =>
      match s with
      | EmptyString => None
      | String a r =>
          match split_at n r with
          | Some (x, y) => Some (String a x, y)
          | None => None
          end
      end
  end.

Definition put_str (s rest : string) : string :=
  put_pos (Pos.of_succ_nat (String.length s)) (s ++ rest).

Definition get_str (s : string) : option (string * string) :=
  match get_pos s with
  | Some (p, r) => split_at (Nat.pred (Pos.to_nat p)) r
  | None => None
  end.

Definition marshal (v : GoValue) : option string :=
  match v with
  | VChargeback c =>
      Some (put_str (ID c) (put_Z (Amount c) (put_str (Currency c)
             (put_str (Reason c) (put_Z (CreatedAt c)
               (put_Z (UpdatedAt c) EmptyString))))))
  | VStringMap k v => Some (put_str k (put_str v EmptyString))
  end.

Definition unmarshal (s : string) : option Chargeback :=
  match get_str s with
  | Some (id, s) =>
  match get_Z s with
  | Some (amount, s) =>
  match get_str s with
  | Some (currency, s) =>
  match get_str s with
  | Some (reason, s) =>
  match get_Z s with
  | Some (createdAt, s) =>
  match get_Z s with
  | Some (updatedAt, EmptyString) =>
      Some (mkChargeback id amount currency reason createdAt updatedAt)
  | _ => None
  end
  | None => None
  end
  | None => None
  end
  | None => None
  end
  | None => None
  end
  | None => None
  end.

Definition ref_JSON : JSON :=
  {| json_Marshal := marshal;
     json_Unmarshal := unmarshal;
     json_Decode := unmarshal |}.

End RefCodec.

(** ** Sample data: the records of the package's tests and scenarios *)
Module Samples.

Definition dup : Chargeback := mkChargeback "a" 1000 "USD" "dup" 0 0.
Definition dup_retry : Chargeback := mkChargeback "a" 9999 "EUR" "other" 0 0.
Definition fraud : Chargeback := mkChargeback "b" 500 "EUR" "fraud" 0 0.
Definition fraud_same : Chargeback := mkChargeback "" 500 "EUR" "fraud" 0 0.
Definition fraud_changed : Chargeback := mkChargeback "" 999 "EUR" "fraud" 0 0.
Definition fraud_changed' : Chargeback :=
  mkChargeback "zzz" 999 "EUR" "fraud" 77 88.
Definition blank : Chargeback := mkChargeback "" 1000 "USD" "dup" 0 0.

(** The store after [Create(fraud)] at clock reading 3. *)
Definition fraud_store : Bucket :=
  fst (Create (H := RefCodec.ref_JSON) fraud 3 ∅).

(** A POST /chargebacks/a whose body is the encoding of [dup]. *)
Definition post_dup : Request :=
  mkRequest "a" (default "" (RefCodec.marshal (VChargeback dup))).

(** Create, then an Update that changes the amount, with the clock moving
    forward and with the clock stepping back in between. *)
Definition forward : list op :=
  [OpCreate dup 10; OpUpdate "a" fraud_changed 12].
Definition backward : list op :=
  [OpCreate dup 10; OpUpdate "a" fraud_changed 5].

End Samples.

(** ** net/http: the response a handler leaves in its writer *)

Definition StatusNoContent : Z := 204.
Definition StatusNotFound : Z := 404.
Definition StatusMethodNotAllowed : Z := 405.

(** The headers, the status line ([None] until it is written) and the body
    the client receives. *)
Record ResponseWriter := mkWriter {
  Header : gmap string string;
  Code : option Z;
  Sent : string
}.

Definition new_writer : ResponseWriter := mkWriter ∅ None "".

(** [w.Header().Set(k, v)]: a header set after the status line went out does
    not reach the client. *)
Definition Header_Set (k v : string) (w : ResponseWriter) : ResponseWriter :=
  match Code w with
  | Some _ => w
  | None => mkWriter (<[k := v]> (Header w)) None (Sent w)
  end.

(** [w.WriteHeader(status)]: only the first call counts. *)
Definition WriteHeader (status : Z) (w : ResponseWriter) : ResponseWriter :=
  match Code w with
  | Some _ => w
  | None => mkWriter (Header w) (Some status) (Sent w)
  end.

(** [w.Write(data)]: writes the status line as 200 if none was written. *)
Definition Write (data : string) (w : ResponseWriter) : ResponseWriter :=
  mkWriter (Header w) (Some (default StatusOK (Code w))) (Sent w ++ data).

(** What [writeJSON(w, status, v)] does to the writer [w], given the
    content type, status and body it computes. *)
Definition send (r : Response) (w : ResponseWriter) : ResponseWriter :=
  Write (Written r)
        (WriteHeader (StatusCode r)
                     (Header_Set "Content-Type" (ContentType r) w)).

(** [json.Marshal] at the type [[]models.Chargeback]. *)
Class JSONSlice := {
  json_MarshalSlice : slice Chargeback -> option string
}.

(** ** package handlers: the other routes *)
Module Handler.
Section Routes.
Context `{JSON} `{JSONSlice}.

(** [writeJSON] at a slice of chargebacks. *)
Definition writeItems (status : Z) (items : slice Chargeback) : Response :=
  mkResponse status "application/json"
             match json_MarshalSlice items with
             | Some data => data ++ newline
             | None => ""
             end.

(** [Handler.update] *)
Definition update (r : Request) (now : Time) (b : Bucket)
    (w : ResponseWriter) : Bucket * ResponseWriter :=
  let id := PathValue_id r in
  if String.eqb id "" then
    (b, send (writeError StatusBadRequest "missing id in path") w)
  else
    match json_Decode (Body r) with
    | None => (b, send (writeError StatusBadRequest "invalid JSON body") w)
    | Some body =>
        match Update id body now b with
        | (b', inl ErrNotFound) =>
            (b', send (writeError StatusNotFound "chargeback not found") w)
        | (b', inl _) =>
            (b', send (writeError StatusInternalServerError
                                  "failed to update chargeback") w)
        | (b', inr (result, written)) =>
            let w := if written
                     then Header_Set "X-Idempotency-Write" "true" w
                     else Header_Set "X-Idempotency-Write" "false" w in
            (b', send (writeJSON StatusOK (VChargeback result)) w)
        end
    end.

(** [Handler.delete] *)
Definition delete (r : Request) (b : Bucket) (w : ResponseWriter)
  : Bucket * ResponseWriter :=
  let id := PathValue_id r in
  if String.eqb id "" then
    (b, send (writeError StatusBadRequest "missing id in path") w)
  else
    match Delete id b with
    | (b', Some _) =>
        (b', send (writeError StatusInternalServerError
                              "failed to delete chargeback") w)
    | (b', None) => (b', send (writeJSON StatusOK (VStringMap "deleted" id)) w)
    end.

(** [Handler.list] *)
Definition list (b : Bucket) (w : ResponseWriter) : ResponseWriter :=
  match List b with
  | inl _ =>
      send (writeError StatusInternalServerError "failed to list chargebacks")
           w
  | inr items => send (writeItems StatusOK items) w
  end.

(** [Handler.ServeHTTP]: dispatch on the request method. *)
Definition ServeHTTP (method : string) (r : Request) (now : Time)
    (b : Bucket) (w : ResponseWriter) : Bucket * ResponseWriter :=
  if String.eqb method "GET" then (b, list b w)
  else if String.eqb method "POST" then
    let (b', resp) := create r now b in (b', send resp w)
  else if String.eqb method "PUT" then update r now b w
  else if String.eqb method "DELETE" then delete r b w
  else (b, send (writeError StatusMethodNotAllowed "method not allowed") w).
End Routes.
End Handler.

(** ** package main: CORS *)

(** A handler: the request method, the request, the clock reading, and the
    store and writer it acts on. *)
Definition HandlerFunc : Type :=
  string -> Request -> Time -> Bucket -> ResponseWriter ->
  Bucket * ResponseWriter.

(** [setCORSHeaders] *)
Definition setCORSHeaders (w : ResponseWriter) : ResponseWriter :=
  Header_Set "Access-Control-Expose-Headers" "X-Idempotency-Write"
    (Header_Set "Access-Control-Allow-Headers" "Content-Type"
       (Header_Set "Access-Control-Allow-Methods"
                   "GET, POST, PUT, DELETE, OPTIONS"
          (Header_Set "Access-Control-Allow-Origin" "*" w))).

(** [corsMiddleware] *)
Definition corsMiddleware (next : HandlerFunc) : HandlerFunc :=
  fun method r now b w =>
    let w := setCORSHeaders w in
    if String.eqb method "OPTIONS" then (b, WriteHeader StatusNoContent w)
    else next method r now b w.

(** ** The query client of the frontend: the retry delay of a mutation *)
Module QueryClient.

(** [Math.min(1000 * 2 ** attempt, 10_000)]; on a failure count the two
    arguments are integers, or the first is infinite and the second is
    returned. *)
Definition retryDelay (attempt : nat) : Z :=
  Z.min (1000 * 2 ^ Z.of_nat attempt) 10000.

(** [Math.round(delay / 1000)]: the nearest integer, halves rounded up. *)
Definition seconds (delay : Z) : Z := (2 * delay + 1000) / 2000.

(** The plural ending of the toast: [seconds === 1 ? '' : 's']. *)
Definition plural (seconds : Z) : string :=
  if Z.eqb seconds 1 then "" else "s".

End QueryClient.

(** ** Stores whose records sit under their own IDs *)
Section Keyed.
Context `{JSON}.

(** Every stored value decodes to a record whose ID is its key as the codec
    coerces it, and the key and the value are within the engine's limits. *)
Definition keyed (coerce : string -> string) (b : Bucket) : Prop :=
  forall k v, b !! k = Some v ->
    (exists r, json_Unmarshal v = Some r /\ ID r = coerce k)
    /\ put_accepts k v.
End Keyed.

(** The reference encoding of a slice: a mark for the nil slice; otherwise
    the length, then the records. *)
Definition ref_marshal_slice (items : slice Chargeback) : option string :=
  match items with
  | slice_nil => Some "n"
  | slice_of l =>
      Some (RefCodec.put_pos (Pos.of_succ_nat (length l))
              (fold_right (fun c rest =>
                             RefCodec.put_str
                               (default "" (RefCodec.marshal (VChargeback c)))
                               rest)
                          "" l))
  end.

Definition ref_JSONSlice : JSONSlice :=
  {| json_MarshalSlice := ref_marshal_slice |}.

(** ** More sample data: requests, and a store with a damaged value *)
Module MoreSamples.

(** [Samples.dup] with timestamps supplied by the caller. *)
Definition dup_stamped : Chargeback := mkChargeback "a" 1000 "USD" "dup" 77 88.

(** A POST /chargebacks/a whose body claims another ID and timestamps. *)
Definition post_dup_other : Request :=
  mkRequest "a" (default "" (RefCodec.marshal
                   (VChargeback (mkChargeback "zzz" 1000 "USD" "dup" 5 6)))).

(** A PUT /chargebacks/b that changes the amount. *)
Definition put_fraud_changed : Request :=
  mkRequest "b" (default ""
                   (RefCodec.marshal (VChargeback Samples.fraud_changed))).

(** A DELETE /chargebacks/b. *)
Definition delete_b : Request := mkRequest "b" "".

(** A bucket whose only value is not an encoded record. *)
Definition garbled : Bucket := {["x" := "garbage"]}.

End MoreSamples.

(** ** A codec that coerces

    The reference codec behind the coercion [encoding/json] applies to the
    bytes that occur in no UTF-8 text (0xC0, 0xC1 and 0xF5 to 0xFF): each
    becomes U+FFFD, the three bytes EF BF BD.  On a string whose other bytes
    are valid UTF-8 this is what [json.Marshal] followed by [json.Unmarshal]
    returns. *)
Module Coercing.

Definition never_valid (a : ascii) : bool :=
  let n := nat_of_ascii a in
  Nat.eqb n 192 || Nat.eqb n 193 || Nat.leb 245 n.

Fixpoint coerce (s : string) : string :=
  match s with
  | EmptyString => EmptyString
  | String a rest =>
      if never_valid a
      then String (ascii_of_nat 239)
             (String (ascii_of_nat 191)
                (String (ascii_of_nat 189) (coerce rest)))
      else String a (coerce rest)
  end.

Definition marshal (v : GoValue) : option string :=
  match v with
  | VChargeback c => RefCodec.marshal (VChargeback (coerced coerce c))
  | VStringMap k v => RefCodec.marshal (VStringMap (coerce k) (coerce v))
  end.

Definition unmarshal (s : string) : option Chargeback :=
  match RefCodec.unmarshal s with
  | Some c => Some (coerced coerce c)
  | None => None
  end.

Definition codec : JSON :=
  {| json_Marshal := marshal;
     json_Unmarshal := unmarshal;
     json_Decode := unmarshal |}.

End Coercing.

(** ** Sample data with bytes that are not UTF-8 *)
Module LossySamples.

(** The one-byte string 0xFF, and U+FFFD. *)
Definition ff : string := String (ascii_of_nat 255) EmptyString.
Definition fffd : string :=
  String (ascii_of_nat 239)
    (String (ascii_of_nat 191) (String (ascii_of_nat 189) EmptyString)).

(** A candidate whose ID is the byte 0xFF. *)
Definition odd : Chargeback := mkChargeback ff 1000 "USD" "dup" 0 0.

(** A payload whose Reason is the byte 0xFF. *)
Definition odd_reason : Chargeback := mkChargeback "" 500 "EUR" ff 0 0.

(** The store after [Create(fraud)] at clock reading 3. *)
Definition fraud_store : Bucket :=
  fst (Create (H := Coercing.codec) Samples.fraud 3 ∅).

(** A PUT /chargebacks/b that changes the amount. *)
Definition put_fraud_changed : Request :=
  mkRequest "b" (default ""
                   (Coercing.marshal (VChargeback Samples.fraud_changed))).

(** A POST /chargebacks/<0xFF>, and a later one with another body. *)
Definition post_odd : Request :=
  mkRequest ff (default "" (Coercing.marshal (VChargeback Samples.dup))).
Definition post_odd_again : Request :=
  mkRequest ff (default "" (Coercing.marshal (VChargeback Samples.fraud))).

(** Create under the ID 0xFF, then an Update that changes the amount. *)
Definition odd_history : list op :=
  [OpCreate odd 10; OpUpdate ff Samples.fraud_changed 12].

End LossySamples.

(** * Properties *)

(** ** The reference codec reads back what it writes *)

Lemma get_put_pos p rest :
  RefCodec.get_pos (RefCodec.put_pos p rest) = Some (p, rest).
Proof.
  induction p as [p IH | p IH |]; simpl; [rewrite IH .. |]; reflexivity.
Qed.

Lemma get_put_Z z rest :
  RefCodec.get_Z (RefCodec.put_Z z rest) = Some (z, rest).
Proof.
  destruct z; simpl; [| rewrite get_put_pos ..]; reflexivity.
Qed.

Lemma split_at_app s rest :
  RefCodec.split_at (String.length s) (s ++ rest) = Some (s, rest).
Proof.
  induction s as [| a s IH]; simpl; [| rewrite IH]; reflexivity.
Qed.

Lemma get_put_str s rest :
  RefCodec.get_str (RefCodec.put_str s rest) = Some (s, rest).
Proof.
  unfold RefCodec.get_str, RefCodec.put_str.
  rewrite get_put_pos, SuccNat2Pos.pred_id. apply split_at_app.
Qed.

Lemma ref_roundtrip c data :
  RefCodec.marshal (VChargeback c) = Some data ->
  RefCodec.unmarshal data = Some c.
Proof.
  destruct c as [id amount currency reason created updated]. intros Hm.
  simpl in Hm. injection Hm as <-.
  unfold RefCodec.unmarshal.
  cbn [ID Amount Currency Reason CreatedAt UpdatedAt].
  repeat (rewrite ?get_put_str, ?get_put_Z). reflexivity.
Qed.

(** ** The coercing codec satisfies the codec law *)

Lemma coerce_idem s : Coercing.coerce (Coercing.coerce s) = Coercing.coerce s.
Proof.
  induction s as [| a s IH]; [done |]. simpl.
  destruct (Coercing.never_valid a) eqn:Ha; simpl.
  - by rewrite IH.
  - by rewrite Ha, IH.
Qed.

Lemma coerced_idem c :
  coerced Coercing.coerce (coerced Coercing.coerce c)
  = coerced Coercing.coerce c.
Proof. unfold coerced. simpl. by rewrite !coerce_idem. Qed.

Lemma coercing_law : json_coerces (H := Coercing.codec) Coercing.coerce.
Proof.
  split.
  - intros c data Hm.
    change (RefCodec.marshal (VChargeback (coerced Coercing.coerce c))
            = Some data) in Hm.
    change (Coercing.unmarshal data = Some (coerced Coercing.coerce c)).
    unfold Coercing.unmarshal.
    by rewrite (ref_roundtrip _ _ Hm), coerced_idem.
  - intros data c.
    change (Coercing.unmarshal data = Some c ->
            coerced Coercing.coerce c = c).
    unfold Coercing.unmarshal.
    destruct (RefCodec.unmarshal data) as [c0 |]; [| done].
    intros [= <-]. apply coerced_idem.
Qed.

Lemma coercing_decodes_clean :
  json_decodes_clean (H := Coercing.codec) Coercing.coerce.
Proof. intros data c. apply coercing_law. Qed.

(** ** What the engine accepts *)

Lemma bucket_Put_accepts key value (b : Bucket) :
  put_accepts key value ->
  bucket_Put key value b = inr (tt, <[key := value]> b).
Proof.
  intros (Hk & Hlen & Hval). unfold bucket_Put.
  destruct (String.eqb_spec key "") as [-> | _]; [done |].
  destruct (Z.gtb_spec (Z.of_nat (String.length key)) MaxKeySize); [lia |].
  destruct (Z.gtb_spec (Z.of_nat (String.length value)) MaxValueSize); [lia |].
  reflexivity.
Qed.

Lemma bucket_Put_accepted key value (b b' : Bucket) u :
  bucket_Put key value b = inr (u, b') -> put_accepts key value.
Proof.
  unfold bucket_Put, put_accepts.
  destruct (String.eqb_spec key ""); [done |].
  destruct (Z.gtb_spec (Z.of_nat (String.length key)) MaxKeySize); [done |].
  destruct (Z.gtb_spec (Z.of_nat (String.length value)) MaxValueSize);
    [done |].
  intros _. repeat split; [done | lia ..].
Qed.

Lemma bucket_Put_inv key value (b b' : Bucket) u :
  bucket_Put key value b = inr (u, b') -> b' = <[key := value]> b.
Proof.
  unfold bucket_Put. repeat case_match; congruence.
Qed.

Lemma bucket_Put_blank value (b : Bucket) :
  bucket_Put "" value b = inl ErrKeyRequired.
Proof. reflexivity. Qed.

Section StoreFacts.
Context `{JSON}.

Lemma same_payload_true existing incoming :
  same_payload existing incoming = true <->
  Amount incoming = Amount existing /\ Currency incoming = Currency existing
  /\ Reason incoming = Reason existing.
Proof.
  unfold same_payload. rewrite !andb_true_iff, Z.eqb_eq, !String.eqb_eq.
  intuition congruence.
Qed.

Lemma same_payload_false existing incoming :
  same_payload existing incoming = false <->
  Amount incoming <> Amount existing \/ Currency incoming <> Currency existing
  \/ Reason incoming <> Reason existing.
Proof.
  rewrite <- not_true_iff_false, same_payload_true.
  destruct (decide (Amount incoming = Amount existing));
    destruct (decide (Currency incoming = Currency existing));
    destruct (decide (Reason incoming = Reason existing)); tauto.
Qed.

Lemma same_payload_self existing incoming now :
  same_payload (apply_update existing incoming now) incoming = true.
Proof. apply same_payload_true. done. Qed.

(** *** One equation per path of each operation *)

Lemma Get_lookup id (b : Bucket) :
  Get id b = match b !! id with
             | None => inl ErrNotFound
             | Some v => match json_Unmarshal v with
                         | Some c => inr c
                         | None => inl ErrUnmarshal
                         end
             end.
Proof.
  unfold Get, db_View, tx_bind, bucket_Get.
  destruct (b !! id) as [v |]; [| done].
  unfold tx_lift. by destruct (json_Unmarshal v).
Qed.

Lemma Get_record id (b : Bucket) c :
  Get id b = inr c <-> record_at b id = Some c.
Proof.
  rewrite Get_lookup. unfold record_at.
  destruct (b !! id) as [v |]; [| split; done].
  destruct (json_Unmarshal v); split; congruence.
Qed.

Lemma Create_present c now (b : Bucket) v :
  b !! ID c = Some v ->
  Create c now b = match json_Unmarshal v with
                   | Some stored => (b, inr (stored, false))
                   | None => (b, inl ErrUnmarshal)
                   end.
Proof.
  intros Hv. unfold Create, db_Update, tx_bind, bucket_Get. rewrite Hv.
  unfold tx_lift. by destruct (json_Unmarshal v).
Qed.

Lemma Create_absent c now (b : Bucket) :
  b !! ID c = None ->
  Create c now b =
    match json_Marshal (VChargeback (stamp c now)) with
    | None => (b, inl ErrMarshal)
    | Some data =>
        match bucket_Put (ID c) data b with
        | inl e => (b, inl e)
        | inr (_, b') => (b', inr (stamp c now, true))
        end
    end.
Proof.
  intros Hv. unfold Create, db_Update, tx_bind, bucket_Get. rewrite Hv.
  unfold tx_lift. cbn [stamp ID].
  destruct (json_Marshal _) as [data |]; [| done]. unfold tx_ret.
  by destruct (bucket_Put (ID c) data b) as [e | [[] b']].
Qed.

Lemma Update_absent id incoming now (b : Bucket) :
  b !! id = None -> Update id incoming now b = (b, inl ErrNotFound).
Proof.
  intros Hv. unfold Update, db_Update, tx_bind, bucket_Get. by rewrite Hv.
Qed.

Lemma Update_present id incoming now (b : Bucket) v :
  b !! id = Some v ->
  Update id incoming now b =
    match json_Unmarshal v with
    | None => (b, inl ErrUnmarshal)
    | Some existing =>
        if same_payload existing incoming then (b, inr (existing, false))
        else
          match json_Marshal
                  (VChargeback (apply_update existing incoming now)) with
          | None => (b, inl ErrMarshal)
          | Some data =>
              match bucket_Put id data b with
              | inl e => (b, inl e)
              | inr (_, b') =>
                  (b', inr (apply_update existing incoming now, true))
              end
          end
    end.
Proof.
  intros Hv. unfold Update, db_Update, tx_bind, bucket_Get. rewrite Hv.
  unfold tx_lift. destruct (json_Unmarshal v) as [existing |]; [| done].
  unfold tx_ret at 1. destruct (same_payload existing incoming); [done |].
  destruct (json_Marshal _) as [data |]; [| done]. unfold tx_ret.
  by destruct (bucket_Put id data b) as [e | [[] b']].
Qed.

Lemma Delete_eq id (b : Bucket) : Delete id b = (delete id b, None).
Proof. reflexivity. Qed.
End StoreFacts.

(** ** Create *)

(** C1 (as amended): a candidate whose ID is absent from the store, and whose
    write the codec and the engine accept (the ID is not blank and not longer
    than [MaxKeySize], the stamped record encodes, and the encoding is not
    longer than [MaxValueSize]), has its encoding stored under its ID, with
    both timestamps set to the clock reading, and is returned with
    [created = true]; through a codec that coerces strings the stored record
    then reads back as the returned one with its strings coerced.  For a
    candidate whose ID is present, Create returns the stored record, whatever
    the candidate's fields and the clock are, with [created = false], and
    leaves the store as it was. *)
Theorem create_once `{JSON} (c : Chargeback) (now : Time) (b : Bucket) :
  (forall data,
      b !! ID c = None ->
      json_Marshal (VChargeback (stamp c now)) = Some data ->
      put_accepts (ID c) data ->
      Create c now b = (<[ID c := data]> b, inr (stamp c now, true))
      /\ forall coerce, json_coerces coerce ->
           Get (ID c) (<[ID c := data]> b)
           = inr (coerced coerce (stamp c now)))
  /\ (forall v stored,
         b !! ID c = Some v ->
         json_Unmarshal v = Some stored ->
         Create c now b = (b, inr (stored, false))
         /\ Get (ID c) b = inr stored
         /\ forall c' now', ID c' = ID c -> Create c' now' b = Create c now b).
Proof.
  split.
  - intros data Habsent Hdata Hok. split.
    + rewrite Create_absent, Hdata, bucket_Put_accepts; done.
    + intros coerce [Hback _].
      rewrite Get_lookup, lookup_insert_eq. by rewrite (Hback _ _ Hdata).
  - intros v stored Hv Hstored. repeat split.
    + by rewrite (Create_present _ _ _ _ Hv), Hstored.
    + by rewrite Get_lookup, Hv, Hstored.
    + intros c' now' Hid. rewrite <- Hid in Hv.
      rewrite (Create_present c' _ _ _ Hv). rewrite Hid in Hv.
      by rewrite (Create_present c _ _ _ Hv).
Qed.

(** A blank ID is never stored: whatever the codec, the engine refuses the
    key and Create reports the engine's error. *)
Lemma Create_blank_id `{JSON} (c : Chargeback) (now : Time) (b : Bucket) :
  ID c = "" -> b !! "" = None ->
  Create c now b = (b, inl ErrKeyRequired)
  \/ Create c now b = (b, inl ErrMarshal).
Proof.
  intros Hid Habsent. rewrite Create_absent by (by rewrite Hid).
  destruct (json_Marshal _) as [data |]; [left | by right].
  by rewrite Hid, bucket_Put_blank.
Qed.

(** ** Update *)

(** C4: Update on an absent ID fails with [ErrNotFound] and leaves the store
    exactly as it was. *)
Theorem update_absent_not_found `{JSON} (id : string) (incoming : Chargeback)
    (now : Time) (b : Bucket) :
  b !! id = None ->
  Update id incoming now b = (b, inl ErrNotFound)
  /\ fst (Update id incoming now b) !! id = None.
Proof.
  intros Habsent. rewrite Update_absent by done. done.
Qed.

(** A record the decoder returned, updated with strings the coercion leaves
    alone, is left alone by the coercion. *)
Lemma coerced_apply_update coerce existing incoming now :
  coerced coerce existing = existing ->
  coerce (Currency incoming) = Currency incoming ->
  coerce (Reason incoming) = Reason incoming ->
  coerced coerce (apply_update existing incoming now)
  = apply_update existing incoming now.
Proof.
  intros He Hc Hr. apply (f_equal ID) in He. simpl in He.
  unfold coerced, apply_update. simpl. by rewrite He, Hc, Hr.
Qed.

(** C2 (as amended): when the payload's Amount, Currency and Reason equal
    the stored ones, Update returns the stored record with [written = false]
    and leaves the store untouched; repeating a successful Update is a no-op
    that returns the same record when the payload's Currency and Reason are
    strings the codec reads back unchanged; and a successful Update whose
    result has another UpdatedAt than the stored record had a payload that
    differed in one of the three fields. *)
Theorem update_noop `{JSON} (id : string) (incoming : Chargeback)
    (b : Bucket) :
  (forall v existing now,
      b !! id = Some v -> json_Unmarshal v = Some existing ->
      Amount incoming = Amount existing ->
      Currency incoming = Currency existing ->
      Reason incoming = Reason existing ->
      Update id incoming now b = (b, inr (existing, false)))
  /\ (forall coerce now b' r written now',
         json_coerces coerce ->
         coerce (Currency incoming) = Currency incoming ->
         coerce (Reason incoming) = Reason incoming ->
         Update id incoming now b = (b', inr (r, written)) ->
         Update id incoming now' b' = (b', inr (r, false)))
  /\ (forall v existing now b' r written,
         b !! id = Some v -> json_Unmarshal v = Some existing ->
         Update id incoming now b = (b', inr (r, written)) ->
         UpdatedAt r <> UpdatedAt existing ->
         written = true
         /\ (Amount incoming <> Amount existing
             \/ Currency incoming <> Currency existing
             \/ Reason incoming <> Reason existing)).
Proof.
  split; [| split].
  - intros v existing now Hv Hex Ha Hc Hr.
    rewrite (Update_present _ _ _ _ _ Hv), Hex.
    by rewrite (proj2 (same_payload_true existing incoming)).
  - intros coerce now b' r written now' [Hback Hclean] Hc Hr Hup.
    destruct (b !! id) as [v |] eqn:Hv;
      [| by rewrite Update_absent in Hup].
    rewrite (Update_present _ _ _ _ _ Hv) in Hup.
    destruct (json_Unmarshal v) as [existing |] eqn:Hex; [| done].
    destruct (same_payload existing incoming) eqn:Hsame.
    + injection Hup as <- <- <-.
      by rewrite (Update_present _ _ _ _ _ Hv), Hex, Hsame.
    + destruct (json_Marshal _) as [data |] eqn:Hdata; [| done].
      destruct (bucket_Put id data b) as [e | [u b'']] eqn:Hput; [done |].
      injection Hup as <- <- <-. apply bucket_Put_inv in Hput as ->.
      rewrite (Update_present _ _ _ _ data) by apply lookup_insert_eq.
      rewrite (Hback _ _ Hdata).
      rewrite (coerced_apply_update coerce existing incoming now)
        by eauto.
      by rewrite same_payload_self.
  - intros v existing now b' r written Hv Hex Hup Hne.
    rewrite (Update_present _ _ _ _ _ Hv), Hex in Hup.
    destruct (same_payload existing incoming) eqn:Hsame.
    + injection Hup as <- <- <-. done.
    + apply same_payload_false in Hsame.
      destruct (json_Marshal _) as [data |]; [| done].
      destruct (bucket_Put id data b) as [e | [u b'']]; [done |].
      by injection Hup as <- <- <-.
Qed.

(** C3 (as amended): when one of the payload's Amount, Currency or Reason
    differs from the stored value and the codec and the engine accept the
    write, Update returns [written = true] and a record that carries the
    payload's three fields and whose UpdatedAt is the clock reading of the
    call: later than the previous UpdatedAt whenever that reading is.  The
    store then holds the encoding of that record; through a codec that
    coerces strings it reads back with the payload's Amount and with the
    payload's Currency and Reason coerced. *)
Theorem update_effect `{JSON} (id : string) (incoming : Chargeback)
    (now : Time) (b : Bucket) (v data : string) (existing : Chargeback) :
  b !! id = Some v ->
  json_Unmarshal v = Some existing ->
  Amount incoming <> Amount existing
  \/ Currency incoming <> Currency existing
  \/ Reason incoming <> Reason existing ->
  json_Marshal (VChargeback (apply_update existing incoming now)) = Some data ->
  put_accepts id data ->
  exists r,
    Update id incoming now b = (<[id := data]> b, inr (r, true))
    /\ json_Marshal (VChargeback r) = Some data
    /\ Amount r = Amount incoming
    /\ Currency r = Currency incoming
    /\ Reason r = Reason incoming
    /\ UpdatedAt r = now
    /\ (UpdatedAt existing < now -> UpdatedAt existing < UpdatedAt r)
    /\ forall coerce, json_coerces coerce ->
         exists r', Get id (<[id := data]> b) = inr r'
                    /\ Amount r' = Amount incoming
                    /\ Currency r' = coerce (Currency incoming)
                    /\ Reason r' = coerce (Reason incoming)
                    /\ UpdatedAt r' = now.
Proof.
  intros Hv Hex Hdiff Hdata Hok.
  exists (apply_update existing incoming now).
  apply same_payload_false in Hdiff.
  split; [| split; [done |]].
  - by rewrite (Update_present _ _ _ _ _ Hv), Hex, Hdiff, Hdata,
      bucket_Put_accepts.
  - repeat split; [done |]. intros coerce [Hback _].
    exists (coerced coerce (apply_update existing incoming now)).
    by rewrite Get_lookup, lookup_insert_eq, (Hback _ _ Hdata).
Qed.

(** C10: Update reads nothing of the payload but its Amount, Currency and
    Reason, and a successful Update leaves the ID and the CreatedAt of the
    stored record as they were: the record it returns has them, and so has
    the record the store then holds, read back through a codec that coerces
    strings. *)
Theorem update_frame `{JSON} (id : string) (now : Time) (b : Bucket) :
  (forall incoming incoming',
      Amount incoming = Amount incoming' ->
      Currency incoming = Currency incoming' ->
      Reason incoming = Reason incoming' ->
      Update id incoming now b = Update id incoming' now b)
  /\ (forall incoming v existing b' r written,
         b !! id = Some v -> json_Unmarshal v = Some existing ->
         Update id incoming now b = (b', inr (r, written)) ->
         ID r = ID existing /\ CreatedAt r = CreatedAt existing
         /\ forall coerce, json_coerces coerce ->
              exists r', record_at b' id = Some r'
                         /\ ID r' = ID existing
                         /\ CreatedAt r' = CreatedAt existing).
Proof.
  split.
  - intros p p' Ha Hc Hr.
    destruct (b !! id) as [v |] eqn:Hv; [| by rewrite !Update_absent].
    rewrite !(Update_present _ _ _ _ _ Hv).
    destruct (json_Unmarshal v) as [existing |]; [| done].
    unfold same_payload, apply_update. by rewrite Ha, Hc, Hr.
  - intros p v existing b' r written Hv Hex Hup.
    rewrite (Update_present _ _ _ _ _ Hv), Hex in Hup.
    destruct (same_payload existing p).
    + injection Hup as <- <- <-. repeat split.
      intros coerce _. exists existing. unfold record_at. by rewrite Hv.
    + destruct (json_Marshal _) as [data |] eqn:Hdata; [| done].
      destruct (bucket_Put id data b) as [e | [u b'']] eqn:Hput; [done |].
      injection Hup as <- <- <-. apply bucket_Put_inv in Hput as ->.
      repeat split. intros coerce [Hback Hclean].
      exists (coerced coerce (apply_update existing p now)).
      unfold record_at. rewrite lookup_insert_eq, (Hback _ _ Hdata).
      repeat split. simpl.
      by rewrite <- (Hclean _ _ Hex) at 2.
Qed.

(** ** Delete *)

(** C5: Delete succeeds whether or not the ID is present; afterwards the ID
    is absent and Get fails with [ErrNotFound]; a second Delete succeeds as
    well and changes nothing. *)
Theorem delete_idempotent `{JSON} (id : string) (b : Bucket) :
  snd (Delete id b) = None
  /\ fst (Delete id b) !! id = None
  /\ Get id (fst (Delete id b)) = inl ErrNotFound
  /\ Delete id (fst (Delete id b)) = (fst (Delete id b), None)
  /\ Get id (fst (Delete id (fst (Delete id b)))) = inl ErrNotFound.
Proof.
  rewrite !Delete_eq. cbn [fst snd].
  rewrite !Get_lookup, delete_delete_eq, !lookup_delete_eq. done.
Qed.

(** ** Errors *)

(** C7: Update and Get return [ErrNotFound] exactly when the ID is absent;
    Create and Delete never return it. *)
Theorem not_found_taxonomy `{JSON} :
  (forall id incoming now (b : Bucket),
      snd (Update id incoming now b) = inl ErrNotFound <-> b !! id = None)
  /\ (forall id (b : Bucket), Get id b = inl ErrNotFound <-> b !! id = None)
  /\ (forall c now (b : Bucket), snd (Create c now b) <> inl ErrNotFound)
  /\ (forall id (b : Bucket), snd (Delete id b) <> Some ErrNotFound).
Proof.
  split; [| split; [| split]].
  - intros id incoming now b. split.
    + destruct (b !! id) as [v |] eqn:Hv; [| done].
      rewrite (Update_present _ _ _ _ _ Hv).
      unfold bucket_Put. repeat case_match; simplify_eq; done.
    + intros Hv. by rewrite Update_absent.
  - intros id b. rewrite Get_lookup. split.
    + repeat case_match; done.
    + by intros ->.
  - intros c now b. destruct (b !! ID c) as [v |] eqn:Hv.
    + rewrite (Create_present _ _ _ _ Hv). by case_match.
    + rewrite Create_absent by done.
      unfold bucket_Put. repeat case_match; simplify_eq; done.
  - done.
Qed.

(** ** The create handler *)

(** C9: when the request reaches the store and Create returns without
    error, the handler keeps the store's new state and answers 201 if the
    record was created and 200 otherwise; the body is in both cases what
    [json.Marshal] gives for the record Create returned, followed by a
    newline (nothing if the record does not encode), under the content type
    application/json. *)
Theorem create_status `{JSON} (r : Request) (now : Time) (b b' : Bucket)
    (body result : Chargeback) (created : bool) :
  PathValue_id r <> "" ->
  json_Decode (Body r) = Some body ->
  Create (with_ID body (PathValue_id r)) now b = (b', inr (result, created)) ->
  fst (create r now b) = b'
  /\ StatusCode (snd (create r now b)) = (if created then 201 else 200)
  /\ ContentType (snd (create r now b)) = "application/json"
  /\ Written (snd (create r now b))
     = match json_Marshal (VChargeback result) with
       | Some data => data ++ String (ascii_of_nat 10) EmptyString
       | None => EmptyString
       end.
Proof.
  intros Hid Hbody Hcreate. unfold create.
  destruct (String.eqb_spec (PathValue_id r) "") as [Heq | _]; [done |].
  rewrite Hbody, Hcreate. by destruct created.
Qed.

(** ** List *)

Section ListFacts.
Context `{JSON}.

Lemma List_unfold (b : Bucket) :
  List b = match for_each collect (bucket_entries b) slice_nil with
           | inl e => inl e
           | inr slice_nil => inr (slice_of [])
           | inr items => inr items
           end.
Proof.
  unfold List, db_View, bucket_ForEach.
  by destruct (for_each collect (bucket_entries b) slice_nil) as [e | []].
Qed.

Lemma for_each_collect kvs items s :
  for_each collect kvs items = inr s ->
  exists l,
    Forall2 (fun kv c => json_Unmarshal (snd kv) = Some c) kvs l
    /\ slice_elems s = (slice_elems items ++ l)%list.
Proof.
  revert items. induction kvs as [| [k v] kvs IH]; intros items Hrun.
  - injection Hrun as <-. exists []. split; [constructor |].
    by rewrite app_nil_r.
  - simpl in Hrun. unfold collect at 1 in Hrun.
    destruct (json_Unmarshal v) as [c |] eqn:Hc; [| done].
    destruct (IH _ Hrun) as (l & Hl & Hs). exists (c :: l). split.
    + by constructor.
    + rewrite Hs. simpl. by rewrite <- app_assoc.
Qed.
End ListFacts.

(** C8: on the empty store List succeeds with an empty, non-nil slice; a
    successful List never returns the nil slice, and it returns the decoded
    value of every stored key, one per key, in key order. *)
Theorem list_empty_not_nil `{JSON} :
  List ∅ = inr (slice_of [])
  /\ (forall (b : Bucket) s,
         List b = inr s ->
         s <> slice_nil
         /\ slice_len s = size b
         /\ bucket_entries b ≡ₚ map_to_list b
         /\ Forall2 (fun kv c => json_Unmarshal (snd kv) = Some c)
                    (bucket_entries b) (slice_elems s)).
Proof.
  split.
  - rewrite List_unfold. unfold bucket_entries.
    by rewrite map_to_list_empty.
  - intros b s Hlist. rewrite List_unfold in Hlist.
    destruct (for_each collect (bucket_entries b) slice_nil)
      as [e | items] eqn:Hrun; [by destruct e |].
    apply for_each_collect in Hrun as (l & Hl & Hs). simpl in Hs.
    assert (Hperm : bucket_entries b ≡ₚ map_to_list b)
      by apply merge_sort_Permutation.
    assert (Helems : slice_elems s = l).
    { destruct items; injection Hlist as <-; [| done].
      simpl in *. by subst l. }
    split; [by destruct items; injection Hlist as <- |].
    split; [| split; [done | by rewrite Helems]].
    unfold slice_len. rewrite Helems, <- (Forall2_length _ _ _ Hl).
    by rewrite Hperm, length_map_to_list.
Qed.

(** ** Timestamps along a history *)

Section HistoryFacts.
Context `{JSON}.

(** A call either leaves the bucket as it was, or stores the encoding of the
    record it built, or removes a key. *)
Lemma exec_cases o (b : Bucket) :
  exec o b = b
  \/ (exists c now data,
        o = OpCreate c now /\ b !! ID c = None
        /\ json_Marshal (VChargeback (stamp c now)) = Some data
        /\ exec o b = <[ID c := data]> b)
  \/ (exists id incoming now v existing data,
        o = OpUpdate id incoming now /\ b !! id = Some v
        /\ json_Unmarshal v = Some existing
        /\ json_Marshal (VChargeback (apply_update existing incoming now))
           = Some data
        /\ exec o b = <[id := data]> b)
  \/ (exists id, o = OpDelete id /\ exec o b = delete id b).
Proof.
  destruct o as [c now | id incoming now | id]; simpl.
  - destruct (b !! ID c) as [v |] eqn:Hv.
    + left. rewrite (Create_present _ _ _ _ Hv). by case_match.
    + rewrite Create_absent by done.
      destruct (json_Marshal _) as [data |] eqn:Hdata; [| by left].
      destruct (bucket_Put (ID c) data b) as [e | [u b']] eqn:Hput;
        [by left |].
      apply bucket_Put_inv in Hput as ->. right; left. by exists c, now, data.
  - destruct (b !! id) as [v |] eqn:Hv; [| left; by rewrite Update_absent].
    rewrite (Update_present _ _ _ _ _ Hv).
    destruct (json_Unmarshal v) as [existing |] eqn:Hex; [| by left].
    destruct (same_payload existing incoming); [by left |].
    destruct (json_Marshal _) as [data |] eqn:Hdata; [| by left].
    destruct (bucket_Put id data b) as [e | [u b']] eqn:Hput; [by left |].
    apply bucket_Put_inv in Hput as ->. right; right; left.
    by exists id, incoming, now, v, existing, data.
  - right; right; right. by exists id.
Qed.

Lemma ts_inv_later t t' (b : Bucket) : t <= t' -> ts_inv t b -> ts_inv t' b.
Proof.
  intros Ht Hinv id v Hv. destruct (Hinv id v Hv) as (r & Hr & Hcu & Hut).
  exists r. repeat split; [done .. | lia].
Qed.

Lemma ts_inv_insert t (b : Bucket) id data r :
  ts_inv t b -> json_Unmarshal data = Some r ->
  CreatedAt r <= UpdatedAt r -> UpdatedAt r <= t ->
  ts_inv t (<[id := data]> b).
Proof.
  intros Hinv Hr Hcu Hut id' v'. rewrite lookup_insert.
  case_decide; [| by apply Hinv]. intros [= <-]. by exists r.
Qed.

Lemma ts_inv_exec coerce (Hco : json_coerces coerce) o t (b : Bucket) :
  ts_inv t b ->
  match op_time o with
  | Some now => t <= now -> ts_inv now (exec o b)
  | None => ts_inv t (exec o b)
  end.
Proof.
  intros Hinv.
  destruct (exec_cases o b) as
    [-> | [(c & now & data & -> & Hv & Hdata & ->)
        | [(id & p & now & v & ex & data & -> & Hv & Hex & Hdata & ->)
        | (id & -> & ->)]]].
  - destruct (op_time o); [| done]. intros Ht. by eapply ts_inv_later.
  - simpl. intros Ht.
    eapply ts_inv_insert; [by eapply ts_inv_later | by apply (proj1 Hco) | ..];
      simpl; lia.
  - simpl. intros Ht. destruct (Hinv id v Hv) as (r & Hr & Hcu & Hut).
    assert (r = ex) as -> by congruence.
    eapply ts_inv_insert; [by eapply ts_inv_later | by apply (proj1 Hco) | ..];
      simpl; lia.
  - simpl. intros id' v' Hv'. apply lookup_delete_Some in Hv' as [_ Hv'].
    by apply (Hinv id').
Qed.

Lemma ts_inv_run coerce (Hco : json_coerces coerce) ops :
  forall t (b : Bucket),
    ts_inv t b -> clock_monotone t ops -> exists t', ts_inv t' (run ops b).
Proof.
  induction ops as [| o ops IH]; intros t b Hinv Hclock; [by exists t |].
  simpl in *. pose proof (ts_inv_exec coerce Hco o t b Hinv) as Hstep.
  destruct (op_time o) as [now |].
  - destruct Hclock as [Ht Hclock]. by apply (IH now); [apply Hstep |].
  - by apply (IH t).
Qed.

(** Stores reached from the empty one hold decodable values under keys the
    engine accepts. *)
Lemma well_formed_exec coerce (Hco : json_coerces coerce) o (b : Bucket) :
  well_formed b -> well_formed (exec o b).
Proof.
  intros Hwf. unfold exec.
  destruct o as [c now | id incoming now | id].
  - destruct (b !! ID c) as [v |] eqn:Hv.
    + rewrite (Create_present _ _ _ _ Hv). by case_match.
    + rewrite Create_absent by done.
      destruct (json_Marshal _) as [data |] eqn:Hdata; [| done].
      destruct (bucket_Put (ID c) data b) as [e | [u b']] eqn:Hput; [done |].
      pose proof (bucket_Put_inv _ _ _ _ _ Hput) as ->. simpl.
      intros id' v'. rewrite lookup_insert. case_decide; [| by apply Hwf].
      intros [= <-]. subst id'. split; [by rewrite (proj1 Hco _ _ Hdata) |].
      by eapply bucket_Put_accepted.
  - destruct (b !! id) as [v |] eqn:Hv; [| by rewrite Update_absent].
    rewrite (Update_present _ _ _ _ _ Hv).
    destruct (json_Unmarshal v) as [existing |]; [| done].
    destruct (same_payload existing incoming); [done |].
    destruct (json_Marshal _) as [data |] eqn:Hdata; [| done].
    destruct (bucket_Put id data b) as [e | [u b']] eqn:Hput; [done |].
    pose proof (bucket_Put_inv _ _ _ _ _ Hput) as ->. simpl.
    intros id' v'. rewrite lookup_insert. case_decide; [| by apply Hwf].
    intros [= <-]. subst id'. split; [by rewrite (proj1 Hco _ _ Hdata) |].
    by eapply bucket_Put_accepted.
  - simpl. intros id' v' Hv'. apply lookup_delete_Some in Hv' as [_ Hv'].
    by apply (Hwf id').
Qed.

Lemma well_formed_run coerce (Hco : json_coerces coerce) ops :
  forall b : Bucket, well_formed b -> well_formed (run ops b).
Proof.
  induction ops as [| o ops IH]; intros b Hwf; [done |].
  simpl. by apply IH, (well_formed_exec coerce).
Qed.

Lemma well_formed_reachable coerce (Hco : json_coerces coerce) ops :
  well_formed (run ops ∅).
Proof.
  apply (well_formed_run coerce); [done |]. intros id v. by rewrite lookup_empty.
Qed.

(** One call keeps the CreatedAt of a record that is still there after it. *)
Lemma created_at_exec coerce (Hco : json_coerces coerce) o (b : Bucket) id r :
  record_at b id = Some r -> is_Some (exec o b !! id) ->
  exists r', record_at (exec o b) id = Some r'
             /\ CreatedAt r' = CreatedAt r.
Proof.
  intros Hr Hsome. unfold record_at in *.
  destruct (exec_cases o b) as
    [-> | [(c & now & data & -> & Hv & Hdata & Hexec)
        | [(id' & p & now & v & ex & data & -> & Hv & Hex & Hdata & Hexec)
        | (id' & -> & Hexec)]]]; [by exists r | rewrite Hexec in * ..].
  - destruct (decide (ID c = id)) as [<- | Hne]; [by rewrite Hv in Hr |].
    rewrite lookup_insert_ne by done. by exists r.
  - destruct (decide (id' = id)) as [-> | Hne].
    + rewrite lookup_insert_eq, (proj1 Hco _ _ Hdata). rewrite Hv, Hex in Hr.
      injection Hr as <-. by eexists.
    + rewrite lookup_insert_ne by done. by exists r.
  - destruct (decide (id' = id)) as [-> | Hne].
    + rewrite lookup_delete_eq in Hsome. by destruct Hsome.
    + rewrite lookup_delete_ne by done. by exists r.
Qed.
End HistoryFacts.

(** C6 (as amended): with a codec that reads a written record back with
    its timestamps as they were (and its strings coerced), in every state
    reached from the empty store by Create, Update and Delete calls whose
    clock readings never decrease, every stored value is a record with
    UpdatedAt >= CreatedAt; and, whatever the clock does, a record that
    stays present through a history of such calls keeps its CreatedAt. *)
Theorem timestamps_invariant `{JSON} (coerce : string -> string)
    (Hco : json_coerces coerce) :
  (forall ops t0 id v,
      clock_monotone t0 ops -> run ops ∅ !! id = Some v ->
      exists r, json_Unmarshal v = Some r /\ CreatedAt r <= UpdatedAt r)
  /\ (forall ops (b : Bucket) id r,
         record_at b id = Some r -> stays_present id ops b ->
         exists r', record_at (run ops b) id = Some r'
                    /\ CreatedAt r' = CreatedAt r).
Proof.
  split.
  - intros ops t0 id v Hclock Hv.
    destruct (ts_inv_run coerce Hco ops t0 ∅) as [t' Hinv]; [| done |].
    + intros id' v'. by rewrite lookup_empty.
    + destruct (Hinv id v Hv) as (r & Hr & Hcu & _). by exists r.
  - induction ops as [| o ops IH]; intros b id r Hr Hstay; [by exists r |].
    destruct Hstay as [Hsome Hstay].
    destruct (created_at_exec coerce Hco o b id r Hr Hsome) as (r1 & Hr1 & Hc1).
    destruct (IH _ _ _ Hr1 Hstay) as (r' & Hr' & Hc'). exists r'.
    split; [done | congruence].
Qed.

(** * The properties on the sample data *)

Section Runs.
Import Samples.
Local Abbreviation R := RefCodec.ref_JSON.
Local Abbreviation K := Coercing.codec.

(** Scenario A under the ID 0xFF: the first Create stores and returns the
    stamped candidate; Get and the retry return it with the ID coerced. *)
Lemma create_once_witness :
  let b1 := fst (Create (H := K) LossySamples.odd 10 ∅) in
  Create (H := K) LossySamples.odd 10 ∅
  = (b1, inr (stamp LossySamples.odd 10, true))
  /\ Get (H := K) LossySamples.ff b1
     = inr (mkChargeback LossySamples.fffd 1000 "USD" "dup" 10 10)
  /\ Create (H := K) LossySamples.odd 20 b1
     = (b1, inr (mkChargeback LossySamples.fffd 1000 "USD" "dup" 10 10,
                 false)).
Proof.
  intros b1.
  destruct (create_once (H := K) LossySamples.odd 10 ∅) as [Hnew _].
  destruct (Hnew _ eq_refl eq_refl) as [Hc Hg].
  { repeat split; [by vm_compute | vm_compute; discriminate ..]. }
  specialize (Hg _ coercing_law).
  destruct (create_once (H := K) LossySamples.odd 20 b1) as [_ Hold].
  destruct (Hold _ (mkChargeback LossySamples.fffd 1000 "USD" "dup" 10 10)
                 eq_refl eq_refl) as (Hr & _).
  subst b1. rewrite Hc in *. cbn [fst] in *.
  split; [reflexivity | split; [exact Hg | exact Hr]].
Defined.

(** A candidate with a blank ID: the ID is absent from the store, and Create
    neither stores the record nor reports it as created. *)
Lemma create_blank_id_rejected :
  (∅ : Bucket) !! ID blank = None
  /\ Create (H := R) blank 10 ∅ = (∅, inl ErrKeyRequired).
Proof. split; reflexivity. Qed.

(** Scenario C. *)
Lemma update_absent_witness :
  (∅ : Bucket) !! "missing" = None
  /\ Update (H := R) "missing" fraud_changed 7 ∅ = (∅, inl ErrNotFound).
Proof.
  split; [reflexivity |].
  apply (update_absent_not_found (H := R) "missing" fraud_changed 7 ∅).
  reflexivity.
Defined.

(** Scenario B: the identical payload is not written; the changed payload
    is written once and, sent again, is not written again. *)
Lemma update_noop_witness :
  Update (H := K) "b" fraud_same 9 LossySamples.fraud_store
  = (LossySamples.fraud_store, inr (stamp fraud 3, false))
  /\ Update (H := K) "b" fraud_changed 10
       (fst (Update (H := K) "b" fraud_changed 9 LossySamples.fraud_store))
     = (fst (Update (H := K) "b" fraud_changed 9 LossySamples.fraud_store),
        inr (apply_update (stamp fraud 3) fraud_changed 9, false)).
Proof.
  destruct (update_noop (H := K) "b" fraud_same LossySamples.fraud_store)
    as [Hsame _].
  destruct (update_noop (H := K) "b" fraud_changed LossySamples.fraud_store)
    as (_ & Hagain & _).
  split.
  - apply (Hsame _ (stamp fraud 3) 9 eq_refl eq_refl); reflexivity.
  - apply (Hagain Coercing.coerce 9 _ _ true 10 coercing_law);
      reflexivity.
Defined.

(** A payload whose Reason is the byte 0xFF: the first Update writes it, the
    store then holds U+FFFD, and the same Update sent again differs from
    what is stored and is written again, with a new UpdatedAt. *)
Lemma update_retry_writes_again :
  snd (Update (H := K) "b" LossySamples.odd_reason 9 LossySamples.fraud_store)
  = inr (mkChargeback "b" 500 "EUR" LossySamples.ff 3 9, true)
  /\ Get (H := K) "b"
       (fst (Update (H := K) "b" LossySamples.odd_reason 9
                    LossySamples.fraud_store))
     = inr (mkChargeback "b" 500 "EUR" LossySamples.fffd 3 9)
  /\ snd (Update (H := K) "b" LossySamples.odd_reason 10
            (fst (Update (H := K) "b" LossySamples.odd_reason 9
                         LossySamples.fraud_store)))
     = inr (mkChargeback "b" 500 "EUR" LossySamples.ff 3 10, true).
Proof. repeat split; reflexivity. Qed.

(** Scenario B, second half, with a Reason that is not UTF-8: the returned
    record carries the payload's Reason, the stored one U+FFFD. *)
Lemma update_effect_witness :
  exists r r',
    snd (Update (H := K) "b" LossySamples.odd_reason 9
                LossySamples.fraud_store) = inr (r, true)
    /\ Reason r = LossySamples.ff
    /\ 3 < UpdatedAt r
    /\ Get (H := K) "b"
         (fst (Update (H := K) "b" LossySamples.odd_reason 9
                      LossySamples.fraud_store)) = inr r'
    /\ Amount r' = 500 /\ Reason r' = LossySamples.fffd.
Proof.
  edestruct (update_effect (H := K) "b" LossySamples.odd_reason 9
               LossySamples.fraud_store)
    as (r & Hup & _ & _ & _ & Hr & _ & Hlt & Hback).
  - reflexivity.
  - reflexivity.
  - right; right. vm_compute. discriminate.
  - reflexivity.
  - repeat split; [done | vm_compute; discriminate ..].
  - destruct (Hback _ coercing_law) as (r' & Hget & Ha' & _ & Hr' & _).
    exists r, r'. rewrite Hup. cbn [fst snd].
    repeat split; [exact Hr | by apply Hlt | exact Hget | exact Ha'
                  | exact Hr'].
Defined.

(** The stored record was last written at clock reading 3.  An Update that
    changes the amount while the clock still reads 3, or after it was set
    back to 2, is written, and its UpdatedAt is not later than the previous
    one. *)
Lemma update_clock_not_advanced :
  Get (H := R) "b" fraud_store = inr (stamp fraud 3)
  /\ snd (Update (H := R) "b" fraud_changed 3 fraud_store)
     = inr (apply_update (stamp fraud 3) fraud_changed 3, true)
  /\ ~ UpdatedAt (stamp fraud 3)
       < UpdatedAt (apply_update (stamp fraud 3) fraud_changed 3)
  /\ snd (Update (H := R) "b" fraud_changed 2 fraud_store)
     = inr (apply_update (stamp fraud 3) fraud_changed 2, true)
  /\ ~ UpdatedAt (stamp fraud 3)
       < UpdatedAt (apply_update (stamp fraud 3) fraud_changed 2).
Proof.
  repeat split; try reflexivity; vm_compute; discriminate.
Qed.

Lemma update_frame_witness :
  Update (H := R) "b" fraud_changed 9 fraud_store
  = Update (H := R) "b" fraud_changed' 9 fraud_store.
Proof.
  destruct (update_frame (H := R) "b" 9 fraud_store) as [Hind _].
  apply Hind; reflexivity.
Defined.

(** The first POST answers 201, the retry 200, both with the encoding of
    the stored record and a newline as the body. *)
Lemma create_status_witness :
  StatusCode (snd (create (H := R) post_dup 10 ∅)) = 201
  /\ StatusCode (snd (create (H := R) post_dup 11
                             (fst (create (H := R) post_dup 10 ∅)))) = 200
  /\ Written (snd (create (H := R) post_dup 10 ∅))
     = default "" (RefCodec.marshal (VChargeback (stamp dup 10))) ++ newline
  /\ Written (snd (create (H := R) post_dup 11
                          (fst (create (H := R) post_dup 10 ∅))))
     = Written (snd (create (H := R) post_dup 10 ∅)).
Proof.
  edestruct (create_status (H := R) post_dup 10 ∅) as (_ & Hs1 & _ & Hw1);
    [done | reflexivity | reflexivity |].
  edestruct (create_status (H := R) post_dup 11
               (fst (create (H := R) post_dup 10 ∅)))
    as (_ & Hs2 & _ & Hw2); [done | reflexivity | reflexivity |].
  split; [exact Hs1 | split; [exact Hs2 | split]].
  - rewrite Hw1. reflexivity.
  - rewrite Hw1, Hw2. reflexivity.
Defined.

(** Create under the ID 0xFF, then an Update: the stored record has its
    timestamps in order and keeps its CreatedAt. *)
Lemma timestamps_invariant_witness :
  clock_monotone 0 LossySamples.odd_history
  /\ (exists v r,
        run (H := K) LossySamples.odd_history ∅ !! LossySamples.ff = Some v
        /\ json_Unmarshal (JSON := K) v = Some r
        /\ CreatedAt r <= UpdatedAt r)
  /\ (exists r,
        record_at (H := K)
          (run (H := K) [OpUpdate LossySamples.ff fraud_changed 12]
               (run (H := K) [OpCreate LossySamples.odd 10] ∅))
          LossySamples.ff = Some r
        /\ CreatedAt r = 10).
Proof.
  destruct (timestamps_invariant (H := K) Coercing.coerce coercing_law)
    as [Hord Hkeep].
  assert (Hclock : clock_monotone 0 LossySamples.odd_history)
    by (vm_compute; repeat split; discriminate).
  split; [exact Hclock | split].
  - edestruct (Hord LossySamples.odd_history 0 LossySamples.ff)
      as (r & Hr & Hle); [exact Hclock | reflexivity |].
    eexists _, r. split; [reflexivity | split; [exact Hr | exact Hle]].
  - apply (Hkeep [OpUpdate LossySamples.ff fraud_changed 12]
                  (run (H := K) [OpCreate LossySamples.odd 10] ∅)
                  LossySamples.ff
                  (mkChargeback LossySamples.fffd 1000 "USD" "dup" 10 10)).
    + reflexivity.
    + split; [eexists; reflexivity | exact I].
Defined.

(** Create at clock reading 10, then an Update that changes the amount after
    the clock was set back to 5: the stored record has UpdatedAt 5 and
    CreatedAt 10. *)
Lemma update_after_clock_step_back :
  record_at (H := R) (run (H := R) backward ∅) "a"
  = Some (mkChargeback "a" 999 "EUR" "fraud" 10 5)
  /\ ~ UpdatedAt (mkChargeback "a" 999 "EUR" "fraud" 10 5)
       >= CreatedAt (mkChargeback "a" 999 "EUR" "fraud" 10 5).
Proof.
  split; [reflexivity |]. vm_compute. intros Hge. by apply Hge.
Qed.
End Runs.

(** * Further properties of the store *)

Section StoreCases.
Context `{JSON}.

(** The three ways a Create can end. *)
Lemma Create_cases c now (b : Bucket) :
  (exists e, Create c now b = (b, inl e))
  \/ (exists v r, b !! ID c = Some v /\ json_Unmarshal v = Some r
                  /\ Create c now b = (b, inr (r, false)))
  \/ (exists data, b !! ID c = None
                   /\ json_Marshal (VChargeback (stamp c now)) = Some data
                   /\ put_accepts (ID c) data
                   /\ Create c now b
                      = (<[ID c := data]> b, inr (stamp c now, true))).
Proof.
  destruct (b !! ID c) as [v |] eqn:Hv.
  - rewrite (Create_present _ _ _ _ Hv).
    destruct (json_Unmarshal v) as [r |] eqn:Hr; [| left; by eexists].
    right; left. by exists v, r.
  - rewrite Create_absent by done.
    destruct (json_Marshal _) as [data |] eqn:Hdata; [| left; by eexists].
    destruct (bucket_Put (ID c) data b) as [e | [u b']] eqn:Hput;
      [left; by eexists |].
    right; right. exists data.
    pose proof (bucket_Put_accepted _ _ _ _ _ Hput).
    apply bucket_Put_inv in Hput as ->. done.
Qed.

(** The three ways an Update can end. *)
Lemma Update_cases id incoming now (b : Bucket) :
  (exists e, Update id incoming now b = (b, inl e))
  \/ (exists v r, b !! id = Some v /\ json_Unmarshal v = Some r
                  /\ same_payload r incoming = true
                  /\ Update id incoming now b = (b, inr (r, false)))
  \/ (exists v r data,
        b !! id = Some v /\ json_Unmarshal v = Some r
        /\ same_payload r incoming = false
        /\ json_Marshal (VChargeback (apply_update r incoming now)) = Some data
        /\ put_accepts id data
        /\ Update id incoming now b
           = (<[id := data]> b, inr (apply_update r incoming now, true))).
Proof.
  destruct (b !! id) as [v |] eqn:Hv;
    [| left; rewrite Update_absent by done; by eexists].
  rewrite (Update_present _ _ _ _ _ Hv).
  destruct (json_Unmarshal v) as [r |] eqn:Hr; [| left; by eexists].
  destruct (same_payload r incoming) eqn:Hsame; [right; left; by exists v, r |].
  destruct (json_Marshal _) as [data |] eqn:Hdata; [| left; by eexists].
  destruct (bucket_Put id data b) as [e | [u b']] eqn:Hput;
    [left; by eexists |].
  right; right. exists v, r, data.
  pose proof (bucket_Put_accepted _ _ _ _ _ Hput).
  apply bucket_Put_inv in Hput as ->. done.
Qed.
End StoreCases.

(** A later Create finds what the first one left: the record it returned,
    read back through the codec. *)
Lemma Create_retry `{JSON} (coerce : string -> string)
    (Hco : json_coerces coerce)
    (c c' : Chargeback) (now now' : Time) (b b' : Bucket) (r : Chargeback)
    (created : bool) :
  Create c now b = (b', inr (r, created)) ->
  ID c' = ID c ->
  Create c' now' b' = (b', inr (coerced coerce r, false))
  /\ (created = false -> coerced coerce r = r).
Proof.
  intros Hc Hid. destruct Hco as [Hback Hclean].
  destruct (Create_cases c now b) as
    [[e He] | [(v & r0 & Hv & Hr0 & He) | (data & Hv & Hdata & _ & He)]];
    rewrite He in Hc; [done | ..]; injection Hc as <- <- <-.
  - rewrite <- Hid in Hv.
    rewrite (Create_present _ _ _ _ Hv), Hr0, (Hclean _ _ Hr0). done.
  - rewrite (Create_present _ _ _ data), (Hback _ _ Hdata); [done |].
    rewrite Hid. apply lookup_insert_eq.
Qed.

(** X1: with a codec that coerces strings on the way, once a Create for an
    ID has returned a record without error, every later Create for that ID,
    whatever its payload and the clock, returns that record with its strings
    coerced and [created = false], and leaves the store as it is; if the
    first answer was itself a retry, the later answers are the very same
    record. *)
Theorem create_retry_stable `{JSON} (coerce : string -> string)
    (Hco : json_coerces coerce)
    (c c' : Chargeback) (now now' : Time) (b b' : Bucket) (r : Chargeback)
    (created : bool) :
  Create c now b = (b', inr (r, created)) ->
  ID c' = ID c ->
  Create c' now' b' = (b', inr (coerced coerce r, false))
  /\ (created = false -> coerced coerce r = r).
Proof.
  intros Hc Hid. destruct Hco as [Hback Hclean].
  destruct (Create_cases c now b) as
    [[e He] | [(v & r0 & Hv & Hr0 & He) | (data & Hv & Hdata & _ & He)]];
    rewrite He in Hc; [done | ..]; injection Hc as <- <- <-.
  - (* the ID was already present: the second call finds the same value,
       which the decoder returned and the coercion leaves alone *)
    rewrite <- Hid in Hv.
    rewrite (Create_present _ _ _ _ Hv), Hr0, (Hclean _ _ Hr0). done.
  - (* the first call stored [data]: the second call decodes it *)
    rewrite (Create_present _ _ _ data), (Hback _ _ Hdata); [done |].
    rewrite Hid. apply lookup_insert_eq.
Qed.

(** X2: a Create or an Update that does not report [created = true], or
    [written = true], leaves the store exactly as it was: errors roll back
    and retries do not write. *)
Theorem no_silent_write `{JSON} (b : Bucket) :
  (forall c now,
      (forall r, snd (Create c now b) <> inr (r, true)) ->
      fst (Create c now b) = b)
  /\ (forall id incoming now,
         (forall r, snd (Update id incoming now b) <> inr (r, true)) ->
         fst (Update id incoming now b) = b).
Proof.
  split.
  - intros c now Hno.
    destruct (Create_cases c now b) as
      [[e He] | [(v & r0 & _ & _ & He) | (data & _ & _ & _ & He)]];
      rewrite He in *; [done .. |].
    by destruct (Hno (stamp c now)).
  - intros id incoming now Hno.
    destruct (Update_cases id incoming now b) as
      [[e He] | [(v & r0 & _ & _ & _ & He)
              | (v & r0 & data & _ & _ & _ & _ & _ & He)]];
      rewrite He in *; [done .. |].
    by destruct (Hno (apply_update r0 incoming now)).
Qed.

(** X3: Create, Update and Delete touch no key but their own. *)
Theorem writes_touch_one_key `{JSON} (b : Bucket) (k : string) :
  (forall c now, ID c <> k -> fst (Create c now b) !! k = b !! k)
  /\ (forall id incoming now,
         id <> k -> fst (Update id incoming now b) !! k = b !! k)
  /\ (forall id, id <> k -> fst (Delete id b) !! k = b !! k).
Proof.
  split; [| split].
  - intros c now Hne.
    destruct (Create_cases c now b) as
      [[e He] | [(v & r0 & _ & _ & He) | (data & _ & _ & _ & He)]];
      rewrite He; [done .. |].
    by apply lookup_insert_ne.
  - intros id incoming now Hne.
    destruct (Update_cases id incoming now b) as
      [[e He] | [(v & r0 & _ & _ & _ & He)
              | (v & r0 & data & _ & _ & _ & _ & _ & He)]];
      rewrite He; [done .. |].
    by apply lookup_insert_ne.
  - intros id Hne. rewrite Delete_eq. by apply lookup_delete_ne.
Qed.

(** X4: with a codec that coerces strings on the way, Get after a
    successful Create or Update reads the record the call returned with its
    strings coerced; it is the very same record when the call did not write
    ([created] or [written] false). *)
Theorem read_your_writes `{JSON} (coerce : string -> string)
    (Hco : json_coerces coerce) (b b' : Bucket) (r : Chargeback)
    (flag : bool) :
  (forall c now,
      Create c now b = (b', inr (r, flag)) ->
      Get (ID c) b' = inr (coerced coerce r)
      /\ (flag = false -> coerced coerce r = r))
  /\ (forall id incoming now,
         Update id incoming now b = (b', inr (r, flag)) ->
         Get id b' = inr (coerced coerce r)
         /\ (flag = false -> coerced coerce r = r)).
Proof.
  destruct Hco as [Hback Hclean]. split.
  - intros c now Hc.
    destruct (Create_cases c now b) as
      [[e He] | [(v & r0 & Hv & Hr0 & He) | (data & Hv & Hdata & _ & He)]];
      rewrite He in Hc; [done | ..]; injection Hc as <- <- <-;
      rewrite Get_lookup.
    + by rewrite Hv, Hr0, (Hclean _ _ Hr0).
    + by rewrite lookup_insert_eq, (Hback _ _ Hdata).
  - intros id incoming now Hu.
    destruct (Update_cases id incoming now b) as
      [[e He] | [(v & r0 & Hv & Hr0 & _ & He)
              | (v & r0 & data & Hv & Hr0 & _ & Hdata & _ & He)]];
      rewrite He in Hu; [done | ..]; injection Hu as <- <- <-;
      rewrite Get_lookup.
    + by rewrite Hv, Hr0, (Hclean _ _ Hr0).
    + by rewrite lookup_insert_eq, (Hback _ _ Hdata).
Qed.


(** X6: Delete removes one record or none: on an absent ID the store stays
    equal, on a present ID it loses exactly that key. *)
Theorem delete_exact `{JSON} (id : string) (b : Bucket) :
  (b !! id = None -> fst (Delete id b) = b)
  /\ (is_Some (b !! id) -> S (size (fst (Delete id b))) = size b)
  /\ dom (fst (Delete id b)) = dom b ∖ {[id]}.
Proof.
  rewrite Delete_eq. cbn [fst]. split; [| split].
  - apply delete_id.
  - intros [v Hv]. rewrite <- (insert_delete_id b id v Hv) at 2.
    rewrite map_size_insert_None; [done | apply lookup_delete_eq].
  - apply dom_delete_L.
Qed.


(** X8: Update reports [written = true] exactly when the ID holds a record
    that differs from the payload in Amount, Currency or Reason and the
    updated record encodes within the engine's limits; the other fields of
    the returned record are the stored ID and CreatedAt and the clock
    reading. *)
Theorem update_outcome `{JSON} (id : string) (incoming : Chargeback)
    (now : Time) (b : Bucket) (r : Chargeback) :
  snd (Update id incoming now b) = inr (r, true)
  <-> exists v existing data,
        b !! id = Some v /\ json_Unmarshal v = Some existing
        /\ (Amount incoming <> Amount existing
            \/ Currency incoming <> Currency existing
            \/ Reason incoming <> Reason existing)
        /\ r = mkChargeback (ID existing) (Amount incoming)
                 (Currency incoming) (Reason incoming) (CreatedAt existing) now
        /\ json_Marshal (VChargeback r) = Some data
        /\ put_accepts id data.
Proof.
  split.
  - intros Hu.
    destruct (Update_cases id incoming now b) as
      [[e He] | [(v & r0 & _ & _ & _ & He)
              | (v & r0 & data & Hv & Hr0 & Hdiff & Hdata & Hok & He)]];
      rewrite He in Hu; [done .. |].
    injection Hu as <-. apply same_payload_false in Hdiff.
    by exists v, r0, data.
  - intros (v & existing & data & Hv & Hex & Hdiff & -> & Hdata & Hok).
    apply same_payload_false in Hdiff.
    rewrite (Update_present _ _ _ _ _ Hv), Hex, Hdiff.
    unfold apply_update. by rewrite Hdata, bucket_Put_accepts.
Qed.

Lemma Create_ext `{JSON} (c c' : Chargeback) (now : Time) (b : Bucket) :
  ID c = ID c' -> Amount c = Amount c' -> Currency c = Currency c' ->
  Reason c = Reason c' ->
  Create c now b = Create c' now b.
Proof.
  intros Hid Ha Hc Hr.
  destruct (b !! ID c) as [v |] eqn:Hv.
  - rewrite (Create_present c _ _ _ Hv). rewrite Hid in Hv.
    by rewrite (Create_present c' _ _ _ Hv).
  - rewrite (Create_absent c) by done. rewrite Hid in Hv.
    rewrite (Create_absent c') by done.
    unfold stamp. by rewrite Hid, Ha, Hc, Hr.
Qed.

(** X9: Create reads nothing of the candidate but its ID, Amount, Currency
    and Reason: timestamps supplied by the caller never reach the store. *)
Theorem create_ignores_timestamps `{JSON} (c c' : Chargeback) (now : Time)
    (b : Bucket) :
  ID c = ID c' -> Amount c = Amount c' -> Currency c = Currency c' ->
  Reason c = Reason c' ->
  Create c now b = Create c' now b.
Proof.
  intros Hid Ha Hc Hr.
  destruct (b !! ID c) as [v |] eqn:Hv.
  - (* present: the candidate is not read beyond its ID *)
    rewrite (Create_present c _ _ _ Hv). rewrite Hid in Hv.
    by rewrite (Create_present c' _ _ _ Hv).
  - (* absent: both candidates are stamped into the same record *)
    rewrite (Create_absent c) by done. rewrite Hid in Hv.
    rewrite (Create_absent c') by done.
    unfold stamp. by rewrite Hid, Ha, Hc, Hr.
Qed.

(** ** What List returns *)

Section ListMore.
Context `{JSON}.

Lemma entries_lookup (b : Bucket) k v :
  (k, v) ∈ bucket_entries b <-> b !! k = Some v.
Proof.
  unfold bucket_entries. rewrite merge_sort_Permutation.
  apply elem_of_map_to_list.
Qed.

Lemma for_each_collect_fail kvs items e :
  for_each collect kvs items = inl e ->
  e = ErrUnmarshal
  /\ exists k v, (k, v) ∈ kvs /\ json_Unmarshal v = None.
Proof.
  revert items. induction kvs as [| [k v] kvs IH]; intros items Hrun;
    [done |].
  simpl in Hrun. unfold collect at 1 in Hrun.
  destruct (json_Unmarshal v) as [c |] eqn:Hc.
  - destruct (IH _ Hrun) as (-> & k' & v' & Hin & Hv'). split; [done |].
    exists k', v'. split; [by right | done].
  - injection Hrun as <-. split; [done |]. exists k, v. split; [by left | done].
Qed.

Lemma List_inr (b : Bucket) s :
  List b = inr s ->
  exists l, s = slice_of l
            /\ Forall2 (fun kv c => json_Unmarshal (snd kv) = Some c)
                       (bucket_entries b) l.
Proof.
  rewrite List_unfold.
  destruct (for_each collect (bucket_entries b) slice_nil)
    as [e | items] eqn:Hrun; [done |].
  apply for_each_collect in Hrun as (l & Hl & Hs). simpl in Hs. subst l.
  destruct items as [| l]; intros [= <-]; eexists; split; try done.
Qed.

Lemma key_le_total : Total key_le.
Proof. intros x y. apply String.leb_total. Qed.

Lemma keyed_entries_ids coerce (b : Bucket) l :
  keyed coerce b ->
  Forall2 (fun kv c => json_Unmarshal (snd kv) = Some c) (bucket_entries b) l ->
  ID <$> l = coerce <$> (bucket_entries b).*1.
Proof.
  intros Hkeyed Hall.
  assert (Hin : forall kv, kv ∈ bucket_entries b -> b !! kv.1 = Some kv.2)
    by (intros [k v]; apply entries_lookup).
  induction Hall as [| [k v] c kvs l Hc Hall IH]; [done |].
  simpl. f_equal.
  - destruct (Hkeyed k v) as [(r & Hr & Hid) _];
      [apply (Hin (k, v)); by left |].
    simpl in Hc. congruence.
  - apply IH. intros kv Hkv. apply Hin. by right.
Qed.
End ListMore.

(** X10: List fails only with a decoding error, and exactly when some
    stored value does not decode. *)
Theorem list_failure `{JSON} (b : Bucket) :
  (forall e, List b = inl e -> e = ErrUnmarshal)
  /\ ((exists e, List b = inl e)
      <-> exists k v, b !! k = Some v /\ json_Unmarshal v = None).
Proof.
  assert (Hfail : forall e, List b = inl e ->
            e = ErrUnmarshal
            /\ exists k v, b !! k = Some v /\ json_Unmarshal v = None).
  { intros e. rewrite List_unfold.
    destruct (for_each collect (bucket_entries b) slice_nil)
      as [e' | items] eqn:Hrun; [| by destruct items].
    intros [= <-].
    destruct (for_each_collect_fail _ _ _ Hrun) as (-> & k & v & Hin & Hv).
    split; [done |]. exists k, v. by rewrite <- entries_lookup. }
  split; [intros e He; by apply Hfail |]. split.
  - intros [e He]. by apply (Hfail e).
  - intros (k & v & Hkv & Hv).
    destruct (List b) as [e | s] eqn:Hlist; [by exists e |].
    apply List_inr in Hlist as (l & _ & Hall).
    apply entries_lookup, list_elem_of_lookup in Hkv as [i Hi].
    destruct (Forall2_lookup_l _ _ _ _ _ Hall Hi) as (c & _ & Hc).
    simpl in Hc. congruence.
Qed.

(** X11: a successful List holds exactly the records Get can read: every
    record Get returns for some ID is in the list, and every record of the
    list is returned by Get for some ID. *)
Theorem list_get_agree `{JSON} (b : Bucket) (s : slice Chargeback)
    (r : Chargeback) :
  List b = inr s ->
  r ∈ slice_elems s <-> exists id, Get id b = inr r.
Proof.
  intros Hlist. apply List_inr in Hlist as (l & -> & Hall). simpl. split.
  - intros Hr. apply list_elem_of_lookup in Hr as [i Hi].
    destruct (Forall2_lookup_r _ _ _ _ _ Hall Hi) as ([k v] & Hkv & Hc).
    exists k. apply list_elem_of_lookup_2, entries_lookup in Hkv.
    rewrite Get_lookup, Hkv. simpl in Hc. by rewrite Hc.
  - intros [id Hget]. rewrite Get_lookup in Hget.
    destruct (b !! id) as [v |] eqn:Hv; [| done].
    destruct (json_Unmarshal v) as [c |] eqn:Hc; [| done].
    injection Hget as ->.
    apply entries_lookup, list_elem_of_lookup in Hv as [i Hi].
    destruct (Forall2_lookup_l _ _ _ _ _ Hall Hi) as (c & Hl & Hc').
    simpl in Hc'. assert (c = r) as -> by congruence.
    by eapply list_elem_of_lookup_2.
Qed.

(** ** Stores reached from the empty store *)

Section KeyedFacts.
Context `{JSON}.
Variable coerce : string -> string.
Hypothesis Hco : json_coerces coerce.

Lemma keyed_insert (b : Bucket) id data r :
  keyed coerce b -> json_Unmarshal data = Some r -> ID r = coerce id ->
  put_accepts id data -> keyed coerce (<[id := data]> b).
Proof.
  intros Hkeyed Hr Hid Hok k v. rewrite lookup_insert.
  case_decide; [| by apply Hkeyed]. intros [= <-]. subst k.
  split; [by exists r | done].
Qed.

Lemma keyed_exec o (b : Bucket) :
  keyed coerce b -> keyed coerce (exec o b).
Proof.
  destruct Hco as [Hback Hclean].
  intros Hkeyed. destruct o as [c now | id incoming now | id]; simpl.
  - destruct (Create_cases c now b) as
      [[e He] | [(v & r0 & _ & _ & He) | (data & _ & Hdata & Hok & He)]];
      rewrite He; [done .. |].
    by eapply keyed_insert; [| apply Hback | |].
  - destruct (Update_cases id incoming now b) as
      [[e He] | [(v & r0 & _ & _ & _ & He)
              | (v & r0 & data & Hv & Hr0 & _ & Hdata & Hok & He)]];
      rewrite He; [done .. |].
    eapply keyed_insert; [done | by apply Hback | | done].
    (* the ID of the stored record came out of the decoder: the coercion
       leaves it alone *)
    destruct (Hkeyed id v Hv) as [(r & Hr & Hid) _].
    assert (r = r0) as -> by congruence.
    pose proof (f_equal ID (Hclean _ _ Hr0)) as Hfix. simpl in *.
    congruence.
  - intros k v Hv. apply lookup_delete_Some in Hv as [_ Hv].
    by apply (Hkeyed k).
Qed.

Lemma keyed_run ops :
  forall b : Bucket, keyed coerce b -> keyed coerce (run ops b).
Proof.
  induction ops as [| o ops IH]; intros b Hkeyed; [done |].
  simpl. by apply IH, keyed_exec.
Qed.

Lemma keyed_reachable ops : keyed coerce (run ops ∅).
Proof. apply keyed_run. intros k v. by rewrite lookup_empty. Qed.

Lemma keyed_List (b : Bucket) :
  keyed coerce b ->
  exists l, List b = inr (slice_of l)
            /\ length l = size b
            /\ ID <$> l = coerce <$> (bucket_entries b).*1.
Proof.
  intros Hkeyed.
  destruct (List b) as [e | s] eqn:Hlist.
  - rewrite List_unfold in Hlist.
    destruct (for_each collect (bucket_entries b) slice_nil)
      as [e' | items] eqn:Hrun; [| by destruct items].
    destruct (for_each_collect_fail _ _ _ Hrun) as (_ & k & v & Hin & Hv).
    apply entries_lookup in Hin.
    destruct (Hkeyed k v Hin) as [(r & Hr & _) _]. congruence.
  - apply List_inr in Hlist as (l & -> & Hall). exists l.
    split; [done |]. split; [| by apply keyed_entries_ids].
    rewrite <- (Forall2_length _ _ _ Hall). unfold bucket_entries.
    by rewrite merge_sort_Permutation, length_map_to_list.
Qed.
End KeyedFacts.

(** X12: with a codec that coerces strings on the way, in every store
    reached from the empty one by Create, Update and Delete calls each
    stored value decodes to a record, the one Get reads under its key, whose
    ID is the key as the codec coerces it (the key itself when the coercion
    leaves it alone), and every key and value is within the engine's
    limits. *)
Theorem reachable_keyed `{JSON} (coerce : string -> string)
    (Hco : json_coerces coerce) (ops : list op) (k v : string) :
  run ops ∅ !! k = Some v ->
  (exists r, json_Unmarshal v = Some r /\ ID r = coerce k
             /\ (coerce k = k -> ID r = k)
             /\ Get k (run ops ∅) = inr r)
  /\ put_accepts k v.
Proof.
  intros Hv.
  destruct (keyed_reachable coerce Hco ops k v Hv) as [(r & Hr & Hid) Hok].
  split; [| done].
  exists r. rewrite Get_lookup, Hv, Hr. repeat split; [done |].
  intros Hk. by rewrite Hid.
Qed.

(** X13: with a codec that coerces strings on the way, on every store
    reached from the empty one List succeeds and returns one record per
    stored key, in ascending byte order of the keys; the ID of each record is
    its key as the codec coerces it. *)
Theorem list_reachable_sorted `{JSON} (coerce : string -> string)
    (Hco : json_coerces coerce) (ops : list op) :
  exists l keys,
    List (run ops ∅) = inr (slice_of l)
    /\ length l = size (run ops ∅)
    /\ ID <$> l = coerce <$> keys
    /\ Sorted (fun x y => String.leb x y = true) keys
    /\ NoDup keys
    /\ forall k, k ∈ keys <-> is_Some (run ops ∅ !! k).
Proof.
  destruct (keyed_List coerce _ (keyed_reachable coerce Hco ops))
    as (l & Hlist & Hlen & Hids).
  exists l, (bucket_entries (run ops ∅)).*1.
  split; [done |]. split; [done |]. split; [done |]. split; [| split].
  - apply (Sorted_fmap fst key_le); [done |].
    apply (Sorted_merge_sort key_le (Total0 := key_le_total)).
  - unfold bucket_entries. rewrite merge_sort_Permutation.
    apply NoDup_fst_map_to_list.
  - intros k. rewrite list_elem_of_fmap. split.
    + intros ([k' v] & -> & Hin). apply entries_lookup in Hin. by exists v.
    + intros [v Hv]. exists (k, v). split; [done |]. by apply entries_lookup.
Qed.

(** X14: a stored value that does not decode makes Get, Update and Create on
    its key fail with the decoding error and leaves the store untouched;
    Delete still removes it, after which the ID can be created again. *)
Theorem undecodable_value `{JSON} (id v : string) (b : Bucket) :
  b !! id = Some v ->
  json_Unmarshal v = None ->
  Get id b = inl ErrUnmarshal
  /\ (forall incoming now, Update id incoming now b = (b, inl ErrUnmarshal))
  /\ (forall c now, ID c = id -> Create c now b = (b, inl ErrUnmarshal))
  /\ Get id (fst (Delete id b)) = inl ErrNotFound.
Proof.
  intros Hv Hbad. repeat split.
  - by rewrite Get_lookup, Hv, Hbad.
  - intros incoming now. by rewrite (Update_present _ _ _ _ _ Hv), Hbad.
  - intros c now Hid. rewrite <- Hid in Hv.
    by rewrite (Create_present _ _ _ _ Hv), Hbad.
  - rewrite Delete_eq. cbn [fst]. by rewrite Get_lookup, lookup_delete_eq.
Qed.

(** * Further properties of the handlers *)

Lemma send_fresh (r : Response) (w : ResponseWriter) :
  Code w = None ->
  send r w = mkWriter (<["Content-Type" := ContentType r]> (Header w))
                      (Some (StatusCode r)) (Sent w ++ Written r).
Proof.
  intros Hw. unfold send, Write, WriteHeader, Header_Set. by rewrite Hw.
Qed.

(** The ways the create handler can end. *)
Lemma create_cases `{JSON} (r : Request) (now : Time) (b : Bucket) :
  (create r now b = (b, writeError StatusBadRequest "missing id in path")
   /\ PathValue_id r = "")
  \/ (create r now b = (b, writeError StatusBadRequest "invalid JSON body")
      /\ json_Decode (Body r) = None)
  \/ exists body,
       PathValue_id r <> "" /\ json_Decode (Body r) = Some body
       /\ ((exists e,
              Create (with_ID body (PathValue_id r)) now b = (b, inl e)
              /\ create r now b
                 = (b, writeError StatusInternalServerError
                                  "failed to create chargeback"))
           \/ (exists b' result created,
                 Create (with_ID body (PathValue_id r)) now b
                 = (b', inr (result, created))
                 /\ create r now b
                    = (b', writeJSON (if created then StatusCreated
                                      else StatusOK) (VChargeback result)))).
Proof.
  unfold create.
  destruct (String.eqb_spec (PathValue_id r) "") as [Hid | Hid]; [by left |].
  destruct (json_Decode (Body r)) as [body |]; [| right; by left].
  right; right. exists body. split; [done |]. split; [done |].
  destruct (Create_cases (with_ID body (PathValue_id r)) now b) as
    [[e He] | [(v & r0 & _ & _ & He) | (data & _ & _ & _ & He)]];
    rewrite He.
  - left. by exists e.
  - right. by exists b, r0, false.
  - right. by eexists _, _, true.
Qed.

(** X15: a POST answers 201, 200, 400 or 500, never 404; it changes the
    store only when it answers 201, and then the ID of the path was absent
    before and is present afterwards. *)
Theorem post_outcome `{JSON} (r : Request) (now : Time) (b : Bucket) :
  (StatusCode (snd (create r now b)) = StatusCreated
   \/ StatusCode (snd (create r now b)) = StatusOK
   \/ StatusCode (snd (create r now b)) = StatusBadRequest
   \/ StatusCode (snd (create r now b)) = StatusInternalServerError)
  /\ (StatusCode (snd (create r now b)) <> StatusCreated ->
      fst (create r now b) = b)
  /\ (StatusCode (snd (create r now b)) = StatusCreated ->
      b !! PathValue_id r = None
      /\ is_Some (fst (create r now b) !! PathValue_id r)).
Proof.
  destruct (create_cases r now b) as
    [[-> _] | [[-> _] | (body & Hid & Hbody & [(e & _ & ->)
                                             | (b' & res & created & Hc & ->)])]];
    cbn [fst snd writeError writeJSON StatusCode];
    [split; [auto | split; [done | discriminate]] .. |].
  destruct (Create_cases (with_ID body (PathValue_id r)) now b) as
    [[e He] | [(v & r0 & _ & _ & He) | (data & Hv & _ & _ & He)]];
    rewrite He in Hc; [done | ..]; injection Hc as <- <- <-.
  - split; [auto | split; [done | discriminate]].
  - split; [auto | split; [done |]]. intros _. simpl in *.
    split; [done |]. rewrite lookup_insert_eq. by eexists.
Qed.

(** X16: with a codec that coerces strings on the way, after a POST that
    answered 201 or 200 with the encoding of a record, every later POST to
    the same path ID with a decodable body, whatever the body says and the
    clock reads, leaves the store as it is and answers 200 with the encoding
    of that record with its strings coerced; that is the very same body
    whenever the coercion leaves the record alone, as it does after a 200. *)
Theorem post_retry_same_body `{JSON} (coerce : string -> string)
    (Hco : json_coerces coerce)
    (r r' : Request) (now now' : Time) (b b' : Bucket) (resp : Response) :
  create r now b = (b', resp) ->
  StatusCode resp = StatusCreated \/ StatusCode resp = StatusOK ->
  PathValue_id r' = PathValue_id r ->
  is_Some (json_Decode (Body r')) ->
  exists result,
    Written resp
    = match json_Marshal (VChargeback result) with
      | Some data => data ++ String (ascii_of_nat 10) EmptyString
      | None => EmptyString
      end
    /\ create r' now' b'
       = (b', mkResponse StatusOK "application/json"
                match json_Marshal (VChargeback (coerced coerce result)) with
                | Some data => data ++ String (ascii_of_nat 10) EmptyString
                | None => EmptyString
                end)
    /\ (StatusCode resp = StatusOK -> coerced coerce result = result)
    /\ (coerced coerce result = result ->
        create r' now' b'
        = (b', mkResponse StatusOK "application/json" (Written resp))).
Proof.
  intros Hfirst Hstatus Hid [body' Hbody'].
  destruct (create_cases r now b) as
    [[He _] | [[He _] | (body & Hne & Hbody & [(e & _ & He)
                                             | (b1 & res & created & Hc & He)])]];
    rewrite He in Hfirst; injection Hfirst as <- <-;
    [by destruct Hstatus .. |].
  destruct (Create_retry coerce Hco _ (with_ID body' (PathValue_id r')) _
              now' _ _ _ _ Hc) as [Hretry Hsame]; [simpl; congruence |].
  assert (Hagain : create r' now' b1
                   = (b1, writeJSON StatusOK
                                    (VChargeback (coerced coerce res)))).
  { unfold create. rewrite Hid.
    destruct (String.eqb_spec (PathValue_id r) "") as [| _]; [done |].
    by rewrite Hbody', <- Hid, Hretry. }
  exists res. split; [done |]. split; [by rewrite Hagain |]. split.
  - intros Hok. apply Hsame. by destruct created.
  - intros Hfix. by rewrite Hagain, Hfix.
Qed.

(** X17: the ID in the path is the key: the ID and the timestamps a POST
    body carries are ignored, so two bodies that agree on Amount, Currency
    and Reason have the same effect and the same answer. *)
Theorem post_path_id_wins `{JSON} (r r' : Request) (now : Time) (b : Bucket)
    (body body' : Chargeback) :
  PathValue_id r = PathValue_id r' ->
  json_Decode (Body r) = Some body ->
  json_Decode (Body r') = Some body' ->
  Amount body = Amount body' -> Currency body = Currency body' ->
  Reason body = Reason body' ->
  create r now b = create r' now b.
Proof.
  intros Hid Hbody Hbody' Ha Hc Hr. unfold create.
  rewrite <- Hid, Hbody, Hbody'.
  by rewrite (Create_ext (with_ID body (PathValue_id r))
                         (with_ID body' (PathValue_id r))).
Qed.

Lemma Update_retry `{JSON} (coerce : string -> string)
    (Hco : json_coerces coerce) (id : string)
    (incoming : Chargeback) (now now' : Time) (b b' : Bucket)
    (r : Chargeback) (written : bool) :
  coerce (Currency incoming) = Currency incoming ->
  coerce (Reason incoming) = Reason incoming ->
  Update id incoming now b = (b', inr (r, written)) ->
  Update id incoming now' b' = (b', inr (r, false)).
Proof.
  intros Hc Hr Hu. destruct Hco as [Hback Hclean].
  destruct (Update_cases id incoming now b) as
    [[e He] | [(v & r0 & Hv & Hr0 & Hsame & He)
            | (v & r0 & data & _ & Hr0 & _ & Hdata & _ & He)]];
    rewrite He in Hu; [done | ..]; injection Hu as <- <- <-.
  - by rewrite (Update_present _ _ _ _ _ Hv), Hr0, Hsame.
  - rewrite (Update_present _ _ _ _ data) by apply lookup_insert_eq.
    rewrite (Hback _ _ Hdata).
    rewrite (coerced_apply_update coerce r0 incoming now) by eauto.
    by rewrite same_payload_self.
Qed.

(** The ways the update handler can end on a request with an ID and a
    decodable body. *)
Lemma update_handler_cases `{JSON} (r : Request) (now : Time) (b : Bucket)
    (w : ResponseWriter) (body : Chargeback) :
  PathValue_id r <> "" ->
  json_Decode (Body r) = Some body ->
  (b !! PathValue_id r = None
   /\ Handler.update r now b w
      = (b, send (writeError StatusNotFound "chargeback not found") w))
  \/ (is_Some (b !! PathValue_id r)
      /\ Handler.update r now b w
         = (b, send (writeError StatusInternalServerError
                                "failed to update chargeback") w))
  \/ (exists b' result written,
        is_Some (b !! PathValue_id r)
        /\ Update (PathValue_id r) body now b = (b', inr (result, written))
        /\ Handler.update r now b w
           = (b', send (writeJSON StatusOK (VChargeback result))
                       (Header_Set "X-Idempotency-Write"
                                   (if written then "true" else "false") w))).
Proof.
  intros Hid Hbody. unfold Handler.update. rewrite Hbody.
  destruct (String.eqb_spec (PathValue_id r) "") as [| _]; [done |].
  destruct (b !! PathValue_id r) as [v |] eqn:Hv.
  - right. rewrite (Update_present _ _ _ _ _ Hv).
    destruct (json_Unmarshal v) as [existing |]; [| by left].
    destruct (same_payload existing body).
    { right. by exists b, existing, false. }
    destruct (json_Marshal _) as [data |]; [| by left].
    unfold bucket_Put. repeat case_match; simplify_eq; try by left.
    right. by eexists _, _, true.
  - left. by rewrite Update_absent.
Qed.

(** Unfold the response and the status constants. *)
Ltac status_norm :=
  cbn [fst snd Code Header Sent StatusCode ContentType Written
       writeError writeJSON] in *;
  unfold StatusOK, StatusCreated, StatusBadRequest, StatusNotFound,
    StatusInternalServerError, StatusMethodNotAllowed, StatusNoContent in *.

(** X18: on a PUT with an ID and a decodable body, the answer is 404 exactly
    when the ID is absent and 200 exactly when the X-Idempotency-Write
    header is sent, with the value "true" or "false"; unless that header
    says "true" the store is left as it was. *)
Theorem put_outcome `{JSON} (r : Request) (now : Time) (b : Bucket)
    (w : ResponseWriter) (body : Chargeback) :
  Code w = None ->
  Header w !! "X-Idempotency-Write" = None ->
  PathValue_id r <> "" ->
  json_Decode (Body r) = Some body ->
  (Code (snd (Handler.update r now b w)) = Some StatusNotFound
   <-> b !! PathValue_id r = None)
  /\ (Code (snd (Handler.update r now b w)) = Some StatusOK
      <-> Header (snd (Handler.update r now b w)) !! "X-Idempotency-Write"
            = Some "true"
          \/ Header (snd (Handler.update r now b w)) !! "X-Idempotency-Write"
             = Some "false")
  /\ (Header (snd (Handler.update r now b w)) !! "X-Idempotency-Write"
      <> Some "true" ->
      fst (Handler.update r now b w) = b).
Proof.
  intros Hw Hx Hid Hbody.
  destruct (update_handler_cases r now b w body Hid Hbody) as
    [[Hv ->] | [[Hv ->] | (b' & res & written & Hv & Hu & ->)]].
  - rewrite send_fresh by done. status_norm.
    rewrite lookup_insert_ne, Hx by done.
    split; [done |]. split; [| done]. split; [done | by intros [|]].
  - rewrite send_fresh by done. status_norm.
    rewrite lookup_insert_ne, Hx by done.
    split; [| split; [| done]].
    + split; [done |]. intros Hnone. rewrite Hnone in Hv. by destruct Hv.
    + split; [done | by intros [|]].
  - assert (Hset : forall v, Header_Set "X-Idempotency-Write" v w
                   = mkWriter (<["X-Idempotency-Write" := v]> (Header w))
                              None (Sent w))
      by (intros v; unfold Header_Set; by rewrite Hw).
    rewrite Hset, send_fresh by done. status_norm.
    rewrite lookup_insert_ne, lookup_insert_eq by done.
    split; [| split].
    + split; [done |]. intros Hnone. rewrite Hnone in Hv. by destruct Hv.
    + split; [| done]. intros _. destruct written; auto.
    + intros Hflag. destruct written; [done |].
      destruct (Update_cases (PathValue_id r) body now b) as
        [[e He] | [(v & r0 & _ & _ & _ & He)
                | (v & r0 & data & _ & _ & _ & _ & _ & He)]];
        rewrite He in Hu; by simplify_eq.
Qed.

(** X19: with a codec that coerces strings on the way and whose decoder
    returns strings the coercion leaves alone, a PUT that answered 200, sent
    again, also with another clock reading, answers 200 with the same body,
    says X-Idempotency-Write: false and leaves the store as it is. *)
Theorem put_retry_no_write `{JSON} (coerce : string -> string)
    (Hco : json_coerces coerce) (Hdec : json_decodes_clean coerce)
    (r : Request) (now now' : Time) (b b' : Bucket)
    (w w' : ResponseWriter) :
  Code w = None ->
  Handler.update r now b w = (b', w') ->
  Code w' = Some StatusOK ->
  exists w'',
    Handler.update r now' b' w = (b', w'')
    /\ Code w'' = Some StatusOK
    /\ Header w'' !! "X-Idempotency-Write" = Some "false"
    /\ Sent w'' = Sent w'.
Proof.
  intros Hw Hfirst Hcode. unfold Handler.update in *.
  destruct (String.eqb_spec (PathValue_id r) "") as [| _].
  { injection Hfirst as <- <-. rewrite send_fresh in Hcode by done.
    by status_norm. }
  destruct (json_Decode (Body r)) as [body |] eqn:Hbody.
  2: { injection Hfirst as <- <-. rewrite send_fresh in Hcode by done.
       by status_norm. }
  destruct (Update (PathValue_id r) body now b)
    as [b1 [e | [result written]]] eqn:Hu.
  { destruct e; injection Hfirst as <- <-;
      rewrite send_fresh in Hcode by done; by status_norm. }
  injection Hfirst as <- <-.
  (* the body came out of the decoder: its strings read back unchanged *)
  pose proof (Hdec _ _ Hbody) as Hclean.
  rewrite (Update_retry coerce Hco _ _ _ now' _ _ _ _
             (f_equal Currency Hclean) (f_equal Reason Hclean) Hu).
  eexists. split; [done |].
  assert (Hset : forall v, Header_Set "X-Idempotency-Write" v w
                 = mkWriter (<["X-Idempotency-Write" := v]> (Header w))
                            None (Sent w))
    by (intros v; unfold Header_Set; by rewrite Hw).
  destruct written; rewrite !Hset, !send_fresh by done; status_norm;
    by rewrite lookup_insert_ne, lookup_insert_eq.
Qed.


Lemma List_inl `{JSON} (b : Bucket) e :
  List b = inl e -> exists k v, b !! k = Some v /\ json_Unmarshal v = None.
Proof.
  rewrite List_unfold.
  destruct (for_each collect (bucket_entries b) slice_nil)
    as [e' | items] eqn:Hrun; [| by destruct items].
  intros _.
  destruct (for_each_collect_fail _ _ _ Hrun) as (_ & k & v & Hin & Hv).
  exists k, v. by rewrite <- entries_lookup.
Qed.

Lemma List_members `{JSON} (b : Bucket) (l : list Chargeback) :
  Forall2 (fun kv c => json_Unmarshal (snd kv) = Some c) (bucket_entries b) l ->
  length l = size b
  /\ (forall k v, b !! k = Some v -> is_Some (json_Unmarshal v))
  /\ forall r, r ∈ l <-> exists id, Get id b = inr r.
Proof.
  intros Hall. split; [| split].
  - rewrite <- (Forall2_length _ _ _ Hall). unfold bucket_entries.
    by rewrite merge_sort_Permutation, length_map_to_list.
  - intros k v Hkv.
    apply entries_lookup, list_elem_of_lookup in Hkv as [i Hi].
    destruct (Forall2_lookup_l _ _ _ _ _ Hall Hi) as (c & _ & Hc).
    by exists c.
  - intros r. split.
    + intros Hr. apply list_elem_of_lookup in Hr as [i Hi].
      destruct (Forall2_lookup_r _ _ _ _ _ Hall Hi) as ([k v] & Hkv & Hc).
      exists k. apply list_elem_of_lookup_2, entries_lookup in Hkv.
      rewrite Get_lookup, Hkv. simpl in Hc. by rewrite Hc.
    + intros [id Hget]. rewrite Get_lookup in Hget.
      destruct (b !! id) as [v |] eqn:Hv; [| done].
      destruct (json_Unmarshal v) as [c |] eqn:Hc; [| done].
      injection Hget as ->.
      apply entries_lookup, list_elem_of_lookup in Hv as [i Hi].
      destruct (Forall2_lookup_l _ _ _ _ _ Hall Hi) as (c & Hl & Hc').
      simpl in Hc'. assert (c = r) as -> by congruence.
      by eapply list_elem_of_lookup_2.
Qed.

(** X21: a GET answers 500 when some stored value does not decode and 200
    otherwise, and nothing else; with the 200 it sends what [json.Marshal]
    gives for a non-nil slice followed by a newline, the slice holding one
    record per stored key and exactly the records Get can read. *)
Theorem get_outcome `{JSON} `{JSONSlice} (b : Bucket) (w : ResponseWriter) :
  Code w = None ->
  ((exists k v, b !! k = Some v /\ json_Unmarshal v = None) ->
   Code (Handler.list b w) = Some StatusInternalServerError)
  /\ ((forall k v, b !! k = Some v -> is_Some (json_Unmarshal v)) ->
      exists l,
        Code (Handler.list b w) = Some StatusOK
        /\ Header (Handler.list b w) !! "Content-Type"
           = Some "application/json"
        /\ Sent (Handler.list b w)
           = Sent w ++ match json_MarshalSlice (slice_of l) with
                       | Some data => data ++ String (ascii_of_nat 10) ""
                       | None => ""
                       end
        /\ length l = size b
        /\ forall r, r ∈ l <-> exists id, Get id b = inr r)
  /\ (Code (Handler.list b w) = Some StatusInternalServerError
      \/ Code (Handler.list b w) = Some StatusOK).
Proof.
  intros Hw. unfold Handler.list.
  destruct (List b) as [e | s] eqn:Hlist.
  - rewrite !send_fresh by done. status_norm.
    split; [done |]. split; [| by left].
    intros Hall. destruct (List_inl _ _ Hlist) as (k & v & Hkv & Hbad).
    destruct (Hall k v Hkv) as [c Hc]. congruence.
  - apply List_inr in Hlist as (l & -> & Hall).
    destruct (List_members b l Hall) as (Hlen & Hdec & Hmem).
    split; [| split; [| right; by rewrite send_fresh]].
    + intros (k & v & Hkv & Hbad).
      destruct (Hdec k v Hkv) as [c Hc]. congruence.
    + intros _. exists l. rewrite !send_fresh by done.
      cbn [Code Header Sent StatusCode ContentType Written
           Handler.writeItems].
      split; [done |]. split; [apply lookup_insert_eq |]. done.
Qed.

Lemma serve_headers `{JSON} `{JSONSlice} (method : string) (r : Request)
    (now : Time) (b : Bucket) (w : ResponseWriter) :
  Code w = None ->
  is_Some (Code (snd (Handler.ServeHTTP method r now b w)))
  /\ Header (snd (Handler.ServeHTTP method r now b w)) !! "Content-Type"
     = Some "application/json"
  /\ forall k, k <> "Content-Type" -> k <> "X-Idempotency-Write" ->
       Header (snd (Handler.ServeHTTP method r now b w)) !! k = Header w !! k.
Proof.
  intros Hw.
  assert (Hsend : forall resp w1,
            ContentType resp = "application/json" ->
            (w1 = w \/ exists v, w1 = Header_Set "X-Idempotency-Write" v w) ->
            is_Some (Code (send resp w1))
            /\ Header (send resp w1) !! "Content-Type"
               = Some "application/json"
            /\ forall k, k <> "Content-Type" -> k <> "X-Idempotency-Write" ->
                 Header (send resp w1) !! k = Header w !! k).
  { intros resp w1 Hct Hw1.
    assert (Code w1 = None /\
            forall k, k <> "X-Idempotency-Write" ->
                      Header w1 !! k = Header w !! k) as [Hc1 Hh1].
    { destruct Hw1 as [-> | [v ->]]; [done |].
      unfold Header_Set. rewrite Hw. split; [done |].
      intros k Hk. cbn [Header]. by rewrite lookup_insert_ne. }
    rewrite send_fresh by done. cbn [Code Header]. rewrite Hct.
    split; [by eexists |]. split; [apply lookup_insert_eq |].
    intros k Hk1 Hk2. rewrite lookup_insert_ne by done. by apply Hh1. }
  unfold Handler.ServeHTTP, Handler.list, Handler.update, Handler.delete,
    create.
  repeat case_match; simplify_eq; cbn [fst snd]; apply Hsend; eauto.
Qed.

Lemma serve_transparent `{JSON} `{JSONSlice} (method : string) (r : Request)
    (now : Time) (b : Bucket) (w w' : ResponseWriter) :
  Code w = None -> Code w' = None -> Sent w = Sent w' ->
  fst (Handler.ServeHTTP method r now b w)
  = fst (Handler.ServeHTTP method r now b w')
  /\ Code (snd (Handler.ServeHTTP method r now b w))
     = Code (snd (Handler.ServeHTTP method r now b w'))
  /\ Sent (snd (Handler.ServeHTTP method r now b w))
     = Sent (snd (Handler.ServeHTTP method r now b w')).
Proof.
  intros Hw Hw' Hsent.
  assert (Hgen : forall resp w1 w1',
            Code w1 = None -> Code w1' = None -> Sent w1 = Sent w1' ->
            Code (send resp w1) = Code (send resp w1')
            /\ Sent (send resp w1) = Sent (send resp w1')).
  { intros resp w1 w1' H1 H1' Hs. rewrite !send_fresh by done.
    cbn [Code Sent]. by rewrite Hs. }
  assert (Hx : forall v,
            Code (Header_Set "X-Idempotency-Write" v w) = None
            /\ Code (Header_Set "X-Idempotency-Write" v w') = None
            /\ Sent (Header_Set "X-Idempotency-Write" v w)
               = Sent (Header_Set "X-Idempotency-Write" v w')).
  { intros v. unfold Header_Set. by rewrite Hw, Hw'. }
  unfold Handler.ServeHTTP, Handler.list, Handler.update, Handler.delete.
  repeat case_match; simplify_eq; cbn [fst snd];
    (split; [done |]);
    first [by apply Hgen | apply Hgen; apply Hx].
Qed.

Lemma setCORSHeaders_fresh (w : ResponseWriter) :
  Code w = None ->
  Code (setCORSHeaders w) = None
  /\ Sent (setCORSHeaders w) = Sent w
  /\ Header (setCORSHeaders w) !! "Access-Control-Allow-Origin" = Some "*"
  /\ Header (setCORSHeaders w) !! "Access-Control-Allow-Methods"
     = Some "GET, POST, PUT, DELETE, OPTIONS"
  /\ Header (setCORSHeaders w) !! "Access-Control-Allow-Headers"
     = Some "Content-Type"
  /\ Header (setCORSHeaders w) !! "Access-Control-Expose-Headers"
     = Some "X-Idempotency-Write".
Proof.
  intros Hw. unfold setCORSHeaders, Header_Set. rewrite Hw. cbn [Code].
  cbn [Header Sent Code]. repeat split; by simplify_map_eq.
Qed.

(** X23: behind the CORS middleware every answer carries the four
    Access-Control headers; an OPTIONS request is answered 204 with an empty
    body without reaching the handler or the store; any other request gets
    the store effect, the status and the body of the handler. *)
Theorem cors_on_every_response `{JSON} `{JSONSlice} (method : string)
    (r : Request) (now : Time) (b : Bucket) :
  (Header (snd (corsMiddleware Handler.ServeHTTP method r now b new_writer))
     !! "Access-Control-Allow-Origin" = Some "*"
   /\ Header (snd (corsMiddleware Handler.ServeHTTP method r now b new_writer))
        !! "Access-Control-Allow-Methods"
      = Some "GET, POST, PUT, DELETE, OPTIONS"
   /\ Header (snd (corsMiddleware Handler.ServeHTTP method r now b new_writer))
        !! "Access-Control-Allow-Headers" = Some "Content-Type"
   /\ Header (snd (corsMiddleware Handler.ServeHTTP method r now b new_writer))
        !! "Access-Control-Expose-Headers" = Some "X-Idempotency-Write")
  /\ (method = "OPTIONS" ->
      fst (corsMiddleware Handler.ServeHTTP method r now b new_writer) = b
      /\ Code (snd (corsMiddleware Handler.ServeHTTP method r now b
                                   new_writer))
         = Some StatusNoContent
      /\ Sent (snd (corsMiddleware Handler.ServeHTTP method r now b
                                   new_writer)) = "")
  /\ (method <> "OPTIONS" ->
      fst (corsMiddleware Handler.ServeHTTP method r now b new_writer)
      = fst (Handler.ServeHTTP method r now b new_writer)
      /\ Code (snd (corsMiddleware Handler.ServeHTTP method r now b
                                   new_writer))
         = Code (snd (Handler.ServeHTTP method r now b new_writer))
      /\ Sent (snd (corsMiddleware Handler.ServeHTTP method r now b
                                   new_writer))
         = Sent (snd (Handler.ServeHTTP method r now b new_writer))).
Proof.
  destruct (setCORSHeaders_fresh new_writer eq_refl)
    as (Hc & Hs & Ho & Hm & Hh & He).
  unfold corsMiddleware.
  destruct (String.eqb_spec method "OPTIONS") as [-> | Hne].
  - cbn [fst snd]. unfold WriteHeader. rewrite Hc. cbn [Header Code Sent].
    repeat split; try done.
  - destruct (serve_headers method r now b _ Hc) as (_ & _ & Hkeep).
    rewrite !Hkeep by done.
    split; [done |]. split; [done |]. intros _.
    by apply serve_transparent.
Qed.

(** X22: every answer of ServeHTTP has a status line and is typed
    application/json; a method other than POST, PUT and DELETE never changes
    the store, and a method other than these and GET is answered 405. *)
Theorem serve_json_and_safe `{JSON} `{JSONSlice} (method : string)
    (r : Request) (now : Time) (b : Bucket) (w : ResponseWriter) :
  Code w = None ->
  (is_Some (Code (snd (Handler.ServeHTTP method r now b w)))
   /\ Header (snd (Handler.ServeHTTP method r now b w)) !! "Content-Type"
      = Some "application/json")
  /\ (method <> "POST" -> method <> "PUT" -> method <> "DELETE" ->
      fst (Handler.ServeHTTP method r now b w) = b)
  /\ (method <> "GET" -> method <> "POST" -> method <> "PUT" ->
      method <> "DELETE" ->
      Code (snd (Handler.ServeHTTP method r now b w))
      = Some StatusMethodNotAllowed).
Proof.
  intros Hw. destruct (serve_headers method r now b w Hw) as (Hc & Hct & _).
  split; [done |]. unfold Handler.ServeHTTP. split.
  - intros Hpost Hput Hdel.
    destruct (String.eqb_spec method "GET"); [done |].
    destruct (String.eqb_spec method "POST"); [done |].
    destruct (String.eqb_spec method "PUT"); [done |].
    by destruct (String.eqb_spec method "DELETE").
  - intros Hget Hpost Hput Hdel.
    destruct (String.eqb_spec method "GET"); [done |].
    destruct (String.eqb_spec method "POST"); [done |].
    destruct (String.eqb_spec method "PUT"); [done |].
    destruct (String.eqb_spec method "DELETE"); [done |].
    cbn [snd]. by rewrite send_fresh.
Qed.

(** ** The retry delay of the frontend *)

(** X24: the delay before a retry doubles from one second with each failed
    attempt up to the fourth, is ten seconds from then on, never decreases,
    and is the whole number of seconds the toast announces; the toast says
    "second" without the plural ending only for the first retry. *)
Theorem retry_delay_bounds (attempt : nat) :
  1000 <= QueryClient.retryDelay attempt <= 10000
  /\ ((attempt <= 3)%nat ->
      QueryClient.retryDelay attempt = 1000 * 2 ^ Z.of_nat attempt)
  /\ ((4 <= attempt)%nat -> QueryClient.retryDelay attempt = 10000)
  /\ QueryClient.retryDelay attempt <= QueryClient.retryDelay (S attempt)
  /\ QueryClient.seconds (QueryClient.retryDelay attempt) * 1000
     = QueryClient.retryDelay attempt
  /\ (QueryClient.plural (QueryClient.seconds (QueryClient.retryDelay attempt))
      = "" <-> attempt = 0%nat).
Proof.
  assert (Hbig : forall n, (4 <= n)%nat -> QueryClient.retryDelay n = 10000).
  { intros n Hn. unfold QueryClient.retryDelay.
    assert (2 ^ 4 <= 2 ^ Z.of_nat n) by (apply Z.pow_le_mono_r; lia).
    change (2 ^ 4) with 16 in *. lia. }
  destruct (le_lt_dec 4 attempt) as [Hge | Hlt].
  - rewrite (Hbig attempt), (Hbig (S attempt)) by lia.
    repeat split; try lia; try done.
  - do 4 (destruct attempt as [| attempt]; [vm_compute; repeat split;
      try discriminate; try lia; done |]).
    lia.
Qed.

(** * The further properties on the sample data *)

Section MoreRuns.
Import Samples MoreSamples.
Local Abbreviation R := RefCodec.ref_JSON.
Local Abbreviation RS := ref_JSONSlice.
Local Abbreviation K := Coercing.codec.

(** Under the ID 0xFF the retry returns the first answer with the ID
    coerced. *)
Lemma create_retry_stable_witness :
  Create (H := K) dup_retry 20 (fst (Create (H := K) dup 10 ∅))
  = (fst (Create (H := K) dup 10 ∅), inr (stamp dup 10, false))
  /\ Create (H := K) LossySamples.odd 20
       (fst (Create (H := K) LossySamples.odd 10 ∅))
     = (fst (Create (H := K) LossySamples.odd 10 ∅),
        inr (mkChargeback LossySamples.fffd 1000 "USD" "dup" 10 10, false)).
Proof.
  split.
  - apply (create_retry_stable (H := K) Coercing.coerce coercing_law
             dup dup_retry 10 20 ∅ _ (stamp dup 10) true); reflexivity.
  - apply (create_retry_stable (H := K) Coercing.coerce coercing_law
             LossySamples.odd LossySamples.odd 10 20 ∅ _
             (stamp LossySamples.odd 10) true); reflexivity.
Defined.

Lemma read_your_writes_witness :
  Get (H := K) "b"
    (fst (Update (H := K) "b" LossySamples.odd_reason 9
                 LossySamples.fraud_store))
  = inr (mkChargeback "b" 500 "EUR" LossySamples.fffd 3 9).
Proof.
  destruct (read_your_writes (H := K) Coercing.coerce coercing_law
              LossySamples.fraud_store
              (fst (Update (H := K) "b" LossySamples.odd_reason 9
                           LossySamples.fraud_store))
              (mkChargeback "b" 500 "EUR" LossySamples.ff 3 9) true)
    as [_ Hu].
  destruct (Hu "b" LossySamples.odd_reason 9 eq_refl) as [Hget _].
  exact Hget.
Defined.


Lemma create_ignores_timestamps_witness :
  Create (H := R) dup 10 ∅ = Create (H := R) dup_stamped 10 ∅.
Proof.
  apply (create_ignores_timestamps (H := R) dup dup_stamped 10 ∅);
    reflexivity.
Defined.

Lemma list_get_agree_witness :
  List (H := R) fraud_store = inr (slice_of [stamp fraud 3])
  /\ stamp fraud 3 ∈ slice_elems (slice_of [stamp fraud 3]).
Proof.
  split; [reflexivity |].
  apply (list_get_agree (H := R) fraud_store (slice_of [stamp fraud 3])
           (stamp fraud 3)); [reflexivity |].
  exists "b". reflexivity.
Defined.

Lemma reachable_keyed_witness :
  exists v r,
    run (H := K) LossySamples.odd_history ∅ !! LossySamples.ff = Some v
    /\ json_Unmarshal (JSON := K) v = Some r
    /\ ID r = LossySamples.fffd.
Proof.
  edestruct (reachable_keyed (H := K) Coercing.coerce coercing_law
               LossySamples.odd_history LossySamples.ff)
    as [(r & Hr & Hid & _) _]; [reflexivity |].
  eexists _, r. split; [reflexivity | split; [exact Hr | exact Hid]].
Defined.

Lemma list_reachable_sorted_witness :
  exists l keys,
    List (H := K) (run (H := K) LossySamples.odd_history ∅)
    = inr (slice_of l)
    /\ length l = size (run (H := K) LossySamples.odd_history ∅)
    /\ ID <$> l = Coercing.coerce <$> keys
    /\ NoDup keys.
Proof.
  destruct (list_reachable_sorted (H := K) Coercing.coerce coercing_law
              LossySamples.odd_history)
    as (l & keys & Hl & Hlen & Hids & _ & Hnd & _).
  exists l, keys.
  split; [exact Hl | split; [exact Hlen | split; [exact Hids | exact Hnd]]].
Defined.

Lemma undecodable_value_witness :
  Get (H := R) "x" garbled = inl ErrUnmarshal
  /\ Update (H := R) "x" fraud_changed 4 garbled = (garbled, inl ErrUnmarshal).
Proof.
  destruct (undecodable_value (H := R) "x" "garbage" garbled)
    as (Hg & Hu & _); [reflexivity | reflexivity |].
  split; [exact Hg | apply Hu].
Defined.

(** POST /chargebacks/<0xFF> on a store that holds the ID answers 200; sent
    again with another body it answers 200 with the very same body. *)
Lemma post_retry_same_body_witness :
  let b0 := fst (create (H := K) LossySamples.post_odd 10 ∅) in
  StatusCode (snd (create (H := K) LossySamples.post_odd 11 b0)) = StatusOK
  /\ create (H := K) LossySamples.post_odd_again 12 b0
     = (b0, mkResponse StatusOK "application/json"
              (Written (snd (create (H := K) LossySamples.post_odd 11 b0)))).
Proof.
  intros b0. split; [reflexivity |].
  destruct (post_retry_same_body (H := K) Coercing.coerce coercing_law
              LossySamples.post_odd LossySamples.post_odd_again 11 12 b0
              b0 (snd (create (H := K) LossySamples.post_odd 11 b0)))
    as (result & _ & _ & Hfix & Hsame).
  - reflexivity.
  - right. reflexivity.
  - reflexivity.
  - eexists. reflexivity.
  - apply Hsame, Hfix. reflexivity.
Defined.

Lemma post_path_id_wins_witness :
  create (H := R) post_dup 10 ∅ = create (H := R) post_dup_other 10 ∅.
Proof.
  eapply (post_path_id_wins (H := R) post_dup post_dup_other 10 ∅);
    reflexivity.
Defined.

Lemma put_outcome_witness :
  Code (snd (Handler.update (H := R) put_fraud_changed 9 fraud_store
                            new_writer)) = Some StatusOK
  /\ Header (snd (Handler.update (H := R) put_fraud_changed 9 fraud_store
                                 new_writer)) !! "X-Idempotency-Write"
     = Some "true".
Proof.
  edestruct (put_outcome (H := R) put_fraud_changed 9 fraud_store new_writer)
    as (_ & Hok & _); [reflexivity | reflexivity | done | reflexivity |].
  assert (Hx : Header (snd (Handler.update (H := R) put_fraud_changed 9
                              fraud_store new_writer))
               !! "X-Idempotency-Write" = Some "true") by reflexivity.
  split; [apply Hok; by left | exact Hx].
Defined.

Lemma put_retry_no_write_witness :
  exists w'',
    Handler.update (H := K) LossySamples.put_fraud_changed 10
      (fst (Handler.update (H := K) LossySamples.put_fraud_changed 9
                           LossySamples.fraud_store new_writer)) new_writer
    = (fst (Handler.update (H := K) LossySamples.put_fraud_changed 9
                           LossySamples.fraud_store new_writer), w'')
    /\ Header w'' !! "X-Idempotency-Write" = Some "false".
Proof.
  destruct (put_retry_no_write (H := K) Coercing.coerce coercing_law
              coercing_decodes_clean LossySamples.put_fraud_changed
              9 10 LossySamples.fraud_store
              (fst (Handler.update (H := K) LossySamples.put_fraud_changed 9
                                   LossySamples.fraud_store new_writer))
              new_writer
              (snd (Handler.update (H := K) LossySamples.put_fraud_changed 9
                                   LossySamples.fraud_store new_writer)))
    as (w'' & Hu & _ & Hx & _);
    [reflexivity | reflexivity | reflexivity |].
  exists w''. split; [exact Hu | exact Hx].
Defined.


Lemma get_outcome_witness :
  (exists l,
     Code (Handler.list (H := K) (H0 := RS) LossySamples.fraud_store
                        new_writer) = Some StatusOK
     /\ Sent (Handler.list (H := K) (H0 := RS) LossySamples.fraud_store
                           new_writer)
        = default "" (ref_marshal_slice (slice_of l)) ++ newline
     /\ length l = size LossySamples.fraud_store)
  /\ Code (Handler.list (H := K) (H0 := RS) garbled new_writer)
     = Some StatusInternalServerError.
Proof.
  split.
  - destruct (get_outcome (H := K) (H0 := RS) LossySamples.fraud_store
                new_writer) as (_ & Hok & _); [reflexivity |].
    destruct Hok as (l & Hcode & _ & Hsent & Hlen & _).
    { intros k v Hkv.
      change LossySamples.fraud_store
        with (run (H := K) [OpCreate fraud 3] ∅) in Hkv.
      by destruct (well_formed_reachable (H := K) Coercing.coerce
                     coercing_law [OpCreate fraud 3] k v Hkv). }
    exists l. split; [exact Hcode | split; [exact Hsent | exact Hlen]].
  - destruct (get_outcome (H := K) (H0 := RS) garbled new_writer)
      as (Hbad & _); [reflexivity |].
    apply Hbad. exists "x", "garbage". split; reflexivity.
Defined.

Lemma serve_json_and_safe_witness :
  fst (Handler.ServeHTTP (H := R) (H0 := RS) "PATCH" delete_b 5 fraud_store
                         new_writer) = fraud_store
  /\ Code (snd (Handler.ServeHTTP (H := R) (H0 := RS) "PATCH" delete_b 5
                                  fraud_store new_writer))
     = Some StatusMethodNotAllowed.
Proof.
  destruct (serve_json_and_safe (H := R) (H0 := RS) "PATCH" delete_b 5
              fraud_store new_writer) as (_ & Hsafe & Hother);
    [reflexivity |].
  split; [by apply Hsafe | by apply Hother].
Defined.
End MoreRuns.
